(** * The EVP_MAC dispatch layer (crypto/evp/mac_lib.c)

    A shallow embedding of the generic MAC lifecycle functions and the
    control-command router.  The C functions work on heap-allocated
    contexts through pointers and call into an algorithm-supplied method
    table; the embedding keeps both visible:

    - memory is a finite map from locations to blocks, a null pointer is
      [None], and a load or store through a null or stale pointer is a
      [Crash];
    - every call into an entry of the method table, every EVPerr report
      and every allocation and release is appended to a trace, so that
      statements such as "without invoking final()" or "destroy runs
      before the context is released" are statements about the trace. *)

From Stdlib Require Import ZArith String Ascii List Lia.
From Stdlib Require Import Strings.Byte.
From stdpp Require Import base option gmap.
Import ListNotations.

Local Open Scope Z_scope.

(** ** Pointers, variadic arguments and events *)

Definition loc := positive.

(** A C pointer: [None] is NULL. *)
Definition ptr := option loc.

Definition NULL : ptr := None.

Definition is_null (p : ptr) : bool :=
  match p with
  | None => true
  | Some _ => false
  end.

(** <limits.h>, 32-bit int. *)
Definition INT_MAX : Z := 2147483647.

(** (size_t) of a long, LP64. *)
Definition size_t_of_long (n : Z) : Z := n mod 2 ^ 64.

(** strlen: the bytes before the first NUL. *)
Fixpoint strlen (s : string) : Z :=
  match s with
  | EmptyString => 0
  | String c s' => if Ascii.eqb c zero then 0 else 1 + strlen s'
  end.

(** What is pushed for the "..." of EVP_MAC_ctrl. *)
Inductive va_val : Type :=
  | VA_ptr (p : ptr)
  | VA_str (s : string)
  | VA_size (n : Z).

Definition va_list := list va_val.

Inductive err_func : Type :=
  | EVP_F_EVP_MAC_CTX_NEW
  | EVP_F_EVP_MAC_CTX_COPY
  | EVP_F_EVP_MAC_CTRL
  | EVP_F_EVP_MAC_CTRL_STR.

Inductive err_reason : Type :=
  | ERR_R_MALLOC_FAILURE
  | EVP_R_COMMAND_NOT_SUPPORTED.

(** Calls into the method table, by entry, with the arguments passed. *)
Inductive entry_call : Type :=
  | Call_new
  | Call_copy (macsrc : ptr)
  | Call_free (macctx : ptr)
  | Call_reset (macctx : ptr)
  | Call_size (macctx : ptr)
  | Call_init (macctx : ptr)
  | Call_update (macctx : ptr) (data : ptr) (datalen : Z)
  | Call_final (macctx : ptr) (out : ptr)
  | Call_ctrl (macctx : ptr) (cmd : Z) (args : va_list)
  | Call_ctrl_str (macctx : ptr) (type value : string).

Inductive event : Type :=
  | Ev_entry (c : entry_call)
  | Ev_err (f : err_func) (r : err_reason)
  | Ev_alloc (p : ptr)
  | Ev_release (l : loc).

Definition is_final_call (e : event) : bool :=
  match e with
  | Ev_entry (Call_final _ _) => true
  | _ => false
  end.

Inductive fault : Type :=
  | NullDeref
  | InvalidPointer.

(** C truth of an int, and the ! operator. *)
Definition lnot (r : Z) : bool := r =? 0.

Section Dispatch.

(** The algorithms' own world: their private states and whatever caller
    memory (data, key and output buffers) they read and write.  The
    dispatch layer passes those pointers through and never looks behind
    them. *)
Context {W : Type}.

(** ** struct evp_mac_st (internal/evp_int.h)

    The entries the dispatch layer calls without a test are total; ctrl
    and ctrl_str may be NULL. *)
Record EVP_MAC : Type := {
  meth_type : Z;
  meth_new : W -> ptr * W;
  meth_copy : ptr -> W -> ptr * W;
  meth_free : ptr -> W -> W;
  meth_reset : ptr -> W -> Z * W;
  meth_size : ptr -> W -> Z * W;
  meth_init : ptr -> W -> Z * W;
  meth_update : ptr -> ptr -> Z -> W -> Z * W;
  meth_final : ptr -> ptr -> W -> Z * W;
  meth_ctrl : option (ptr -> Z -> va_list -> W -> Z * W);
  meth_ctrl_str : option (ptr -> string -> string -> W -> Z * W)
}.

(** ** struct evp_mac_ctx_st (evp_locl.h) *)
Record EVP_MAC_CTX : Type := {
  meth : option EVP_MAC;
  data : ptr
}.

(** ** Memory and the world *)

Inductive block : Type :=
  | B_ctx (c : EVP_MAC_CTX)
  | B_buf (bs : list byte)
  | B_size_t (n : Z).

Record world : Type := World {
  heap : gmap loc block;
  (** whether the coming allocation requests succeed; none left: fail *)
  oracle : list bool;
  algo : W;
  trace : list event
}.

Definition with_heap (h : gmap loc block) (w : world) : world :=
  World h (oracle w) (algo w) (trace w).

Definition with_oracle (o : list bool) (w : world) : world :=
  World (heap w) o (algo w) (trace w).

Definition with_algo (a : W) (w : world) : world :=
  World (heap w) (oracle w) a (trace w).

Definition log (e : event) (w : world) : world :=
  World (heap w) (oracle w) (algo w) (trace w ++ [e]).

(** ** The monad: state, and a crash for undefined behaviour *)

Inductive outcome (A : Type) : Type :=
  | Ok (a : A) (w : world)
  | Crash (f : fault).

Arguments Ok {A} a w.
Arguments Crash {A} f.

Definition M (A : Type) : Type := world -> outcome A.

Definition ret {A} (a : A) : M A := fun w => Ok a w.

Definition bind {A B} (c : M A) (k : A -> M B) : M B :=
  fun w =>
    match c w with
    | Ok a w' => k a w'
    | Crash f => Crash f
    end.

Definition crash {A} (f : fault) : M A := fun _ => Crash f.

#[global] Instance outcome_ret : MRet M := @ret.
#[global] Instance outcome_bind : MBind M := fun A B k c => bind c k.

(** C's [a || b] on conditions with effects. *)
Definition orelse (a b : M bool) : M bool :=
  t ← a; if (t : bool) then ret true else b.

(** ** Memory primitives *)

Definition malloc (b : block) : M ptr :=
  fun w =>
    match oracle w with
    | true :: o =>
        let l := fresh (dom (heap w)) in
        Ok (Some l)
           (log (Ev_alloc (Some l))
                (with_oracle o (with_heap (<[l := b]> (heap w)) w)))
    | false :: o => Ok NULL (log (Ev_alloc NULL) (with_oracle o w))
    | [] => Ok NULL (log (Ev_alloc NULL) w)
    end.

(** OPENSSL_zalloc(sizeof(EVP_MAC_CTX)): all fields zero. *)
Definition OPENSSL_zalloc_ctx : M ptr :=
  malloc (B_ctx {| meth := None; data := NULL |}).

(** OPENSSL_free: nothing for NULL; releasing what is not allocated is
    undefined. *)
Definition OPENSSL_free (p : ptr) : M unit :=
  fun w =>
    match p with
    | None => Ok tt w
    | Some l =>
        match heap w !! l with
        | Some _ => Ok tt (log (Ev_release l) (with_heap (delete l (heap w)) w))
        | None => Crash InvalidPointer
        end
    end.

Definition load_ctx (p : ptr) : M EVP_MAC_CTX :=
  fun w =>
    match p with
    | None => Crash NullDeref
    | Some l =>
        match heap w !! l with
        | Some (B_ctx c) => Ok c w
        | _ => Crash InvalidPointer
        end
    end.

Definition store_ctx (p : ptr) (c : EVP_MAC_CTX) : M unit :=
  fun w =>
    match p with
    | None => Crash NullDeref
    | Some l =>
        match heap w !! l with
        | Some (B_ctx _) => Ok tt (with_heap (<[l := B_ctx c]> (heap w)) w)
        | _ => Crash InvalidPointer
        end
    end.

(** ctx->meth and ctx->data, read and written. *)
Definition get_meth (ctx : ptr) : M (option EVP_MAC) :=
  c ← load_ctx ctx; ret (meth c).

Definition get_data (ctx : ptr) : M ptr :=
  c ← load_ctx ctx; ret (data c).

Definition set_meth (ctx : ptr) (m : option EVP_MAC) : M unit :=
  c ← load_ctx ctx; store_ctx ctx {| meth := m; data := data c |}.

Definition set_data (ctx : ptr) (d : ptr) : M unit :=
  c ← load_ctx ctx; store_ctx ctx {| meth := meth c; data := d |}.

(** [*poutlen = n]. *)
Definition store_size_t (p : ptr) (n : Z) : M unit :=
  fun w =>
    match p with
    | None => Crash NullDeref
    | Some l =>
        match heap w !! l with
        | Some (B_size_t _) => Ok tt (with_heap (<[l := B_size_t n]> (heap w)) w)
        | _ => Crash InvalidPointer
        end
    end.

(** [mac->] on a method-table pointer. *)
Definition deref (mac : option EVP_MAC) : M EVP_MAC :=
  match mac with
  | Some m => ret m
  | None => crash NullDeref
  end.

Definition EVPerr (f : err_func) (r : err_reason) : M unit :=
  fun w => Ok tt (log (Ev_err f r) w).

(** ** Calls through the method table *)

Definition call {A} (c : entry_call) (f : W -> A * W) : M A :=
  fun w =>
    let '(a, s) := f (algo w) in
    Ok a (with_algo s (log (Ev_entry c) w)).

Definition call_new (m : EVP_MAC) : M ptr :=
  call Call_new (meth_new m).

Definition call_copy (m : EVP_MAC) (macsrc : ptr) : M ptr :=
  call (Call_copy macsrc) (meth_copy m macsrc).

Definition call_free (m : EVP_MAC) (macctx : ptr) : M unit :=
  call (Call_free macctx) (fun s => (tt, meth_free m macctx s)).

Definition call_reset (m : EVP_MAC) (macctx : ptr) : M Z :=
  call (Call_reset macctx) (meth_reset m macctx).

Definition call_size (m : EVP_MAC) (macctx : ptr) : M Z :=
  call (Call_size macctx) (meth_size m macctx).

Definition call_init (m : EVP_MAC) (macctx : ptr) : M Z :=
  call (Call_init macctx) (meth_init m macctx).

Definition call_update (m : EVP_MAC) (macctx dat : ptr) (datalen : Z) : M Z :=
  call (Call_update macctx dat datalen) (meth_update m macctx dat datalen).

Definition call_final (m : EVP_MAC) (macctx out : ptr) : M Z :=
  call (Call_final macctx out) (meth_final m macctx out).

(** [ctx->meth == NULL]. *)
Definition no_table (mp : option EVP_MAC) : bool :=
  match mp with
  | None => true
  | Some _ => false
  end.

(** ** The collaborators that are not in mac_lib.c *)

(** EVP_MAC_CTRL_SET_KEY (openssl/evp.h), the reserved set-key command. *)
Variable EVP_MAC_CTRL_SET_KEY : Z.

(** The decoding done by OPENSSL_hexstr2buf (crypto/o_str.c): the bytes
    of the buffer it returns and the long it stores through its second
    argument, or nothing when the text is not hex. *)
Variable hexstr2buf_decode : string -> option (list byte * Z).

(** OPENSSL_hexstr2buf(hex, &binlen): a fresh buffer owned by the caller,
    or NULL when decoding or the allocation fails. *)
Definition OPENSSL_hexstr2buf (hex : string) : M (ptr * Z) :=
  match hexstr2buf_decode hex with
  | None => ret (NULL, 0)
  | Some (bs, binlen) => bin ← malloc (B_buf bs); ret (bin, binlen)
  end.

(** ** mac_lib.c *)

Definition EVP_MAC_CTX_new (mac : option EVP_MAC) : M ptr :=
  ctx ← OPENSSL_zalloc_ctx;
  failed ← orelse (ret (is_null ctx))
                  (m ← deref mac;
                   d ← call_new m;
                   set_data ctx d;;
                   ret (is_null d));
  ctx ← (if (failed : bool)
         then EVPerr EVP_F_EVP_MAC_CTX_NEW ERR_R_MALLOC_FAILURE;;
              OPENSSL_free ctx;;
              ret NULL
         else ret ctx);
  set_meth ctx mac;;
  ret ctx.

Definition evp_mac_ctx_cleanup (ctx : ptr) : M unit :=
  go ← (if is_null ctx then ret false
        else d ← get_data ctx; ret (negb (is_null d)));
  if (go : bool)
  then mp ← get_meth ctx;
       m ← deref mp;
       d ← get_data ctx;
       call_free m d;;
       set_data ctx NULL
  else ret tt.

Definition EVP_MAC_CTX_free (ctx : ptr) : M unit :=
  evp_mac_ctx_cleanup ctx;;
  OPENSSL_free ctx.

Definition EVP_MAC_CTX_copy (dst src : ptr) : M Z :=
  s ← load_ctx src;
  store_ctx dst s;;
  sd ← get_data src;
  failed ← (if is_null sd then ret false
            else mp ← get_meth dst;
                 m ← deref mp;
                 sd' ← get_data src;
                 d ← call_copy m sd';
                 set_data dst d;;
                 ret (is_null d));
  if (failed : bool)
  then EVPerr EVP_F_EVP_MAC_CTX_COPY ERR_R_MALLOC_FAILURE;;
       ret 0
  else ret 1.

Definition EVP_MAC_reset (ctx : ptr) : M Z :=
  d ← get_data ctx;
  if is_null d then ret 1
  else mp ← get_meth ctx;
       m ← deref mp;
       d' ← get_data ctx;
       call_reset m d'.

Definition EVP_MAC_size (ctx : ptr) : M Z :=
  d ← get_data ctx;
  if is_null d then ret 0
  else mp ← get_meth ctx;
       m ← deref mp;
       d' ← get_data ctx;
       call_size m d'.

Definition EVP_MAC_init (ctx : ptr) : M Z :=
  mp ← get_meth ctx;
  m ← deref mp;
  d ← get_data ctx;
  call_init m d.

Definition EVP_MAC_update (ctx dat : ptr) (datalen : Z) : M Z :=
  mp ← get_meth ctx;
  m ← deref mp;
  d ← get_data ctx;
  call_update m d dat datalen.

Definition EVP_MAC_final (ctx out poutlen : ptr) : M Z :=
  (if is_null poutlen then ret tt
   else mp ← get_meth ctx;
        m ← deref mp;
        d ← get_data ctx;
        n ← call_size m d;
        store_size_t poutlen n);;
  if is_null out then ret 1
  else mp ← get_meth ctx;
       m ← deref mp;
       d ← get_data ctx;
       call_final m d out.

Definition EVP_MAC_ctrl (ctx : ptr) (cmd : Z) (args : va_list) : M Z :=
  absent ← orelse (ret (is_null ctx))
                  (mp ← get_meth ctx; ret (no_table mp));
  if (absent : bool)
  then EVPerr EVP_F_EVP_MAC_CTRL EVP_R_COMMAND_NOT_SUPPORTED;;
       ret (-2)
  else
    mp ← get_meth ctx;
    m ← deref mp;
    ok ← match meth_ctrl m with
         | Some f =>
             d ← get_data ctx;
             call (Call_ctrl d cmd args) (f d cmd args)
         | None => ret (-2)
         end;
    (if ok =? -2
     then EVPerr EVP_F_EVP_MAC_CTRL EVP_R_COMMAND_NOT_SUPPORTED
     else ret tt);;
    ret ok.

Definition EVP_MAC_ctrl_str (ctx : ptr) (type value : string) : M Z :=
  absent ← orelse (ret (is_null ctx))
                  (orelse (mp ← get_meth ctx; ret (no_table mp))
                          (mp ← get_meth ctx;
                           m ← deref mp;
                           ret (match meth_ctrl_str m with
                                | Some _ => false
                                | None => true
                                end)));
  if (absent : bool)
  then EVPerr EVP_F_EVP_MAC_CTRL_STR EVP_R_COMMAND_NOT_SUPPORTED;;
       ret (-2)
  else
    mp ← get_meth ctx;
    m ← deref mp;
    match meth_ctrl_str m with
    | Some f =>
        d ← get_data ctx;
        ok ← call (Call_ctrl_str d type value) (f d type value);
        (if ok =? -2
         then EVPerr EVP_F_EVP_MAC_CTRL_STR EVP_R_COMMAND_NOT_SUPPORTED
         else ret tt);;
        ret ok
    | None => crash NullDeref
    end.

Definition EVP_MAC_str2ctrl (ctx : ptr) (cmd : Z) (value : string) : M Z :=
  let len := strlen value in
  if len >? INT_MAX then ret (-1)
  else EVP_MAC_ctrl ctx cmd [VA_str value; VA_size len].

Definition EVP_MAC_hex2ctrl (ctx : ptr) (cmd : Z) (hex : string) : M Z :=
  '(bin, binlen) ← OPENSSL_hexstr2buf hex;
  if is_null bin then ret 0
  else
    rv ← (if binlen <=? INT_MAX
          then EVP_MAC_ctrl ctx cmd
                 [VA_ptr bin; VA_size (size_t_of_long binlen)]
          else ret (-1));
    OPENSSL_free bin;;
    ret rv.

Definition EVP_MAC_oneshot (mac : option EVP_MAC) (key : ptr) (keylen : Z)
    (dat : ptr) (datalen : Z) (out poutlen : ptr) : M Z :=
  ctx ← EVP_MAC_CTX_new mac;
  failed ←
    orelse (ret (is_null ctx))
   (orelse (r ← EVP_MAC_init ctx; ret (lnot r))
   (orelse (r ← EVP_MAC_ctrl ctx EVP_MAC_CTRL_SET_KEY
                  [VA_ptr key; VA_size keylen];
            ret (lnot r))
   (orelse (r ← EVP_MAC_update ctx dat datalen; ret (lnot r))
           (r ← EVP_MAC_final ctx out poutlen; ret (lnot r)))));
  let ok := if (failed : bool) then 0 else 1 in
  EVP_MAC_CTX_free ctx;;
  ret ok.

End Dispatch.

Arguments EVP_MAC : clear implicits.
Arguments EVP_MAC_CTX : clear implicits.
Arguments world : clear implicits.
Arguments outcome : clear implicits.
Arguments M : clear implicits.
Arguments Ok {W A} a w.
Arguments Crash {W A} f.

(** ** Pointers the callers may pass *)

(** A context pointer that is NULL or points to a live context. *)
Definition ctx_ok {W} (w : world W) (ctx : ptr) : Prop :=
  match ctx with
  | None => True
  | Some l => exists c, heap w !! l = Some (B_ctx c)
  end.

(** An out-length pointer that is NULL or points to a size_t. *)
Definition outlen_ok {W} (w : world W) (poutlen : ptr) : Prop :=
  match poutlen with
  | None => True
  | Some q => exists old, heap w !! q = Some (B_size_t old)
  end.

(** ** Worlds the operations lead to *)

(** After the router has reported "command not supported". *)
Definition not_supported {W} (w : world W) : world W :=
  log (Ev_err EVP_F_EVP_MAC_CTRL EVP_R_COMMAND_NOT_SUPPORTED) w.

(** After size() was called on [d] and its result stored at [q]. *)
Definition size_stored {W} (m : EVP_MAC W) (d : ptr) (q : loc)
    (w : world W) : world W :=
  with_heap (<[q := B_size_t (meth_size m d (algo w)).1]> (heap w))
    (with_algo (meth_size m d (algo w)).2 (log (Ev_entry (Call_size d)) w)).

(** After final() was called on [d] with the buffer [out]. *)
Definition tag_written {W} (m : EVP_MAC W) (d out : ptr)
    (w : world W) : world W :=
  with_algo (meth_final m d out (algo w)).2
    (log (Ev_entry (Call_final d out)) w).

(** After copy() was called on [p] and its result stored as the private
    state of the context at [dst], next to the method table [m]. *)
Definition duplicated {W} (m : EVP_MAC W) (p : ptr) (dst : loc)
    (w : world W) : world W :=
  with_heap
    (<[dst := B_ctx {| meth := Some m;
                       data := (meth_copy m p (algo w)).1 |}]> (heap w))
    (with_algo (meth_copy m p (algo w)).2 (log (Ev_entry (Call_copy p)) w)).

(** After a buffer holding [bs] was allocated. *)
Definition buffer_at {W} (bs : list byte) (o : list bool)
    (w : world W) : world W :=
  let b := fresh (dom (heap w)) in
  log (Ev_alloc (Some b))
    (with_oracle o (with_heap (<[b := B_buf bs]> (heap w)) w)).

(** After the block at [l] was released. *)
Definition released {W} (l : loc) (w : world W) : world W :=
  log (Ev_release l) (with_heap (delete l (heap w)) w).

(** [c] runs to completion from every world in [I] and ends in [I]. *)
Definition safe {W A} (I : world W -> Prop) (c : M W A) : Prop :=
  forall w, I w -> exists a w', c w = Ok a w' /\ I w'.

(** The context at [b] belongs to [m] and owns [d]; the out-length
    pointer can be stored through. *)
Definition running {W} (m : EVP_MAC W) (b d : loc) (poutlen : ptr)
    (w : world W) : Prop :=
  heap w !! b = Some (B_ctx {| meth := Some m; data := Some d |}) /\
  outlen_ok w poutlen.

(** The calls of final() in a trace. *)
Definition final_calls (t : list event) : list event :=
  List.filter is_final_call t.

(** ** A small algorithm to run the dispatch layer on

    Its world is the number of bytes absorbed so far; the tag is that
    count.  [fresh_state] is what new() returns and [ctrl] the control
    entry, so that the table can be built with a failing constructor or
    without a control entry. *)
Definition tally_ctrl (macctx : ptr) (cmd : Z) (args : va_list) (s : Z) : Z * Z :=
  (if cmd =? 1 then 1 else -2, s).

Definition tally_mac (fresh_state : ptr)
    (ctrl : option (ptr -> Z -> va_list -> Z -> Z * Z)) : EVP_MAC Z :=
  {| meth_type := 0;
     meth_new := fun s => (fresh_state, s);
     meth_copy := fun macsrc s => (Pos.succ <$> macsrc, s);
     meth_free := fun _ s => s;
     meth_reset := fun _ _ => (1, 0);
     meth_size := fun _ s => (8, s);
     meth_init := fun _ _ => (1, 0);
     meth_update := fun _ _ datalen s => (1, s + datalen);
     meth_final := fun _ _ s => (1, s);
     meth_ctrl := ctrl;
     meth_ctrl_str := None |}.

(** The table used in the examples: new() returns the state at 9, ctrl
    knows command 1. *)
Definition tally : EVP_MAC Z := tally_mac (Some 9%positive) (Some tally_ctrl).

(** The same without a ctrl entry. *)
Definition tally_plain : EVP_MAC Z := tally_mac (Some 9%positive) None.

(** An empty memory with the outcomes of the coming allocations. *)
Definition start (allocs : list bool) : world Z :=
  {| heap := ∅; oracle := allocs; algo := 0; trace := [] |}.

(** A memory holding one context of [m] at location 1, with private
    state [d]. *)
Definition one_ctx (m : EVP_MAC Z) (d : ptr) (allocs : list bool) : world Z :=
  {| heap := {[ 1%positive := B_ctx {| meth := Some m; data := d |} ]};
     oracle := allocs; algo := 0; trace := [] |}.

(** The same with a size_t at location 2. *)
Definition ctx_and_size_t (m : EVP_MAC Z) (d : ptr) : world Z :=
  {| heap := {[ 1%positive := B_ctx {| meth := Some m; data := d |};
                2%positive := B_size_t 0 ]};
     oracle := []; algo := 0; trace := [] |}.

(** Two contexts: a source at 1 with private state [d], and a blank
    destination at 2. *)
Definition two_ctx (m : EVP_MAC Z) (d : ptr) : world Z :=
  {| heap := {[ 1%positive := B_ctx {| meth := Some m; data := d |};
                2%positive := B_ctx {| meth := None; data := NULL |} ]};
     oracle := []; algo := 0; trace := [] |}.

(** A table whose copy() fails. *)
Definition no_copy_mac : EVP_MAC Z :=
  {| meth_type := 0;
     meth_new := fun s => (Some 9%positive, s);
     meth_copy := fun _ s => (NULL, s);
     meth_free := fun _ s => s;
     meth_reset := fun _ _ => (1, 0);
     meth_size := fun _ s => (8, s);
     meth_init := fun _ _ => (1, 0);
     meth_update := fun _ _ datalen s => (1, s + datalen);
     meth_final := fun _ _ s => (1, s);
     meth_ctrl := None;
     meth_ctrl_str := None |}.

(** A decoder of pairs of hex digits for the examples. *)
Definition hex_digit (c : ascii) : option N :=
  let n := N_of_ascii c in
  if ((48 <=? n) && (n <=? 57))%N then Some (n - 48)%N
  else if ((97 <=? n) && (n <=? 102))%N then Some (n - 87)%N
  else if ((65 <=? n) && (n <=? 70))%N then Some (n - 55)%N
  else None.

Fixpoint hex_bytes (s : string) : option (list byte) :=
  match s with
  | EmptyString => Some []
  | String _ EmptyString => None
  | String hi (String lo rest) =>
      match hex_digit hi, hex_digit lo, hex_bytes rest with
      | Some h, Some l, Some bs =>
          match Byte.of_N (16 * h + l) with
          | Some b => Some (b :: bs)
          | None => None
          end
      | _, _, _ => None
      end
  end.

Definition hex_pairs (s : string) : option (list byte * Z) :=
  match hex_bytes s with
  | Some bs => Some (bs, Z.of_nat (length bs))
  | None => None
  end.

(** A decoder that reports a length no int can hold. *)
Definition hex_huge (s : string) : option (list byte * Z) :=
  Some ([], INT_MAX + 1).

(** ** What the further properties speak of *)

(** The calls of free() and the error reports in a trace. *)
Definition is_free_call (e : event) : bool :=
  match e with
  | Ev_entry (Call_free _) => true
  | _ => false
  end.

Definition free_calls (t : list event) : list event :=
  List.filter is_free_call t.

Definition is_err_report (e : event) : bool :=
  match e with
  | Ev_err _ _ => true
  | _ => false
  end.

Definition err_reports (t : list event) : list event :=
  List.filter is_err_report t.


(** A context the router has nowhere to send a command to: null, without
    a method table, or with a table that has no ctrl entry. *)
Definition unrouted {W} (w : world W) (ctx : ptr) : Prop :=
  match ctx with
  | None => True
  | Some l =>
      exists c, heap w !! l = Some (B_ctx c) /\
                match meth c with
                | None => True
                | Some m => meth_ctrl m = None
                end
  end.

(** A table whose init, ctrl, update and final answer what they are told
    to; its ctrl_str knows the parameter "key". *)
Definition script_mac (ri rc ru rf : Z) : EVP_MAC Z :=
  {| meth_type := 0;
     meth_new := fun s => (Some 9%positive, s);
     meth_copy := fun macsrc s => (Pos.succ <$> macsrc, s);
     meth_free := fun _ s => s;
     meth_reset := fun _ _ => (1, 0);
     meth_size := fun _ s => (8, s);
     meth_init := fun _ _ => (ri, 0);
     meth_update := fun _ _ datalen s => (ru, s + datalen);
     meth_final := fun _ _ s => (rf, s);
     meth_ctrl := Some (fun _ _ _ s => (rc, s));
     meth_ctrl_str :=
       Some (fun _ type _ s => (if String.eqb type "key" then 1 else -2, s)) |}.

(** A memory holding a size_t at location 2 and nothing else. *)
Definition one_size_t (allocs : list bool) : world Z :=
  {| heap := {[ 2%positive := B_size_t 0 ]};
     oracle := allocs; algo := 0; trace := [] |}.

(** Two contexts of [m], each with a private state of its own: 9 at
    location 1 and 5 at location 2. *)
Definition two_owned (m : EVP_MAC Z) : world Z :=
  {| heap := {[ 1%positive := B_ctx {| meth := Some m;
                                       data := Some 9%positive |};
                2%positive := B_ctx {| meth := Some m;
                                       data := Some 5%positive |} ]};
     oracle := []; algo := 0; trace := [] |}.

Example hex_pairs_00ff : hex_pairs "00ff" = Some ([x00; xff], 2).
Proof. reflexivity. Qed.

Example hex_pairs_gg : hex_pairs "gg" = None.
Proof. reflexivity. Qed.

(** * Properties *)

Section Primitives.

Context {W : Type}.
Implicit Types (w : world W) (l : loc) (c : EVP_MAC_CTX W) (m : EVP_MAC W).

Lemma bind_Ok {A B} (x : M W A) (k : A -> M W B) (w w' : world W) (a : A) :
  x w = Ok a w' -> (x ≫= k) w = k a w'.
Proof. intros H. unfold mbind, outcome_bind, bind. by rewrite H. Qed.

Lemma bind_Crash {A B} (x : M W A) (k : A -> M W B) (w : world W) (f : fault) :
  x w = Crash f -> (x ≫= k) w = Crash f.
Proof. intros H. unfold mbind, outcome_bind, bind. by rewrite H. Qed.

Lemma bind_assoc {A B C} (x : M W A) (k : A -> M W B) (k' : B -> M W C)
    (w : world W) :
  ((x ≫= k) ≫= k') w = (x ≫= fun a => k a ≫= k') w.
Proof. unfold mbind, outcome_bind, bind. by destruct (x w). Qed.

Lemma load_ctx_live w l c :
  heap w !! l = Some (B_ctx c) -> load_ctx (Some l) w = Ok c w.
Proof. intros H. unfold load_ctx. by rewrite H. Qed.

Lemma get_meth_live w l c :
  heap w !! l = Some (B_ctx c) -> get_meth (Some l) w = Ok (meth c) w.
Proof. intros H. unfold get_meth. by rewrite (bind_Ok _ _ _ _ _ (load_ctx_live _ _ _ H)). Qed.

Lemma get_data_live w l c :
  heap w !! l = Some (B_ctx c) -> get_data (Some l) w = Ok (data c) w.
Proof. intros H. unfold get_data. by rewrite (bind_Ok _ _ _ _ _ (load_ctx_live _ _ _ H)). Qed.

Lemma store_ctx_live w l c c' :
  heap w !! l = Some (B_ctx c) ->
  store_ctx (Some l) c' w = Ok tt (with_heap (<[l := B_ctx c']> (heap w)) w).
Proof. intros H. unfold store_ctx. by rewrite H. Qed.

Lemma set_data_live w l c d :
  heap w !! l = Some (B_ctx c) ->
  set_data (Some l) d w =
  Ok tt (with_heap (<[l := B_ctx {| meth := meth c; data := d |}]> (heap w)) w).
Proof.
  intros H. unfold set_data.
  rewrite (bind_Ok _ _ _ _ _ (load_ctx_live _ _ _ H)).
  by apply store_ctx_live with c.
Qed.

Lemma set_meth_live w l c mp :
  heap w !! l = Some (B_ctx c) ->
  set_meth (Some l) mp w =
  Ok tt (with_heap (<[l := B_ctx {| meth := mp; data := data c |}]> (heap w)) w).
Proof.
  intros H. unfold set_meth.
  rewrite (bind_Ok _ _ _ _ _ (load_ctx_live _ _ _ H)).
  by apply store_ctx_live with c.
Qed.

Lemma call_run {A} (e : entry_call) (f : W -> A * W) w :
  call e f w = Ok (f (algo w)).1 (with_algo (f (algo w)).2 (log (Ev_entry e) w)).
Proof. unfold call. by destruct (f (algo w)). Qed.

(** The fields of a world after each of the updates. *)
Lemma heap_with_heap h w : heap (with_heap h w) = h.
Proof. reflexivity. Qed.

Lemma oracle_with_heap h w : oracle (with_heap h w) = oracle w.
Proof. reflexivity. Qed.

Lemma algo_with_heap h w : algo (with_heap h w) = algo w.
Proof. reflexivity. Qed.

Lemma trace_with_heap h w : trace (with_heap h w) = trace w.
Proof. reflexivity. Qed.

Lemma heap_with_oracle o w : heap (with_oracle o w) = heap w.
Proof. reflexivity. Qed.

Lemma oracle_with_oracle o w : oracle (with_oracle o w) = o.
Proof. reflexivity. Qed.

Lemma algo_with_oracle o w : algo (with_oracle o w) = algo w.
Proof. reflexivity. Qed.

Lemma trace_with_oracle o w : trace (with_oracle o w) = trace w.
Proof. reflexivity. Qed.

Lemma heap_with_algo a w : heap (with_algo a w) = heap w.
Proof. reflexivity. Qed.

Lemma oracle_with_algo a w : oracle (with_algo a w) = oracle w.
Proof. reflexivity. Qed.

Lemma algo_with_algo a w : algo (with_algo a w) = a.
Proof. reflexivity. Qed.

Lemma trace_with_algo a w : trace (with_algo a w) = trace w.
Proof. reflexivity. Qed.

Lemma heap_log e w : heap (log e w) = heap w.
Proof. reflexivity. Qed.

Lemma oracle_log e w : oracle (log e w) = oracle w.
Proof. reflexivity. Qed.

Lemma algo_log e w : algo (log e w) = algo w.
Proof. reflexivity. Qed.

Lemma trace_log e w : trace (log e w) = trace w ++ [e].
Proof. reflexivity. Qed.

End Primitives.

Create Rewrite HintDb world.

#[global] Hint Rewrite @heap_with_heap @oracle_with_heap @algo_with_heap @trace_with_heap @heap_with_oracle @oracle_with_oracle @algo_with_oracle @trace_with_oracle
  @heap_with_algo @oracle_with_algo @algo_with_algo @trace_with_algo @heap_log @oracle_log @algo_log @trace_log : world.

(** [live] finds the block a pointer refers to, also after stores and
    releases elsewhere; [step] evaluates the next bind. *)
Ltac live :=
  cbn [heap with_heap with_algo with_oracle log];
  first
    [ eassumption
    | apply lookup_insert_eq
    | rewrite lookup_insert_ne by congruence; eassumption ].

Ltac step :=
  first
    [ rewrite bind_assoc
    | erewrite bind_Ok by (first
        [ eapply get_meth_live; live
        | eapply get_data_live; live
        | eapply load_ctx_live; live
        | eapply set_data_live; live
        | eapply set_meth_live; live
        | eapply store_ctx_live; live
        | eapply call_run
        | reflexivity ])
    | progress unfold orelse
    | progress cbn [is_null NULL no_table deref ret meth data negb lnot
                    fst snd] ].

Section Size.

Context {W : Type}.
Implicit Types (w : world W) (l : loc) (c : EVP_MAC_CTX W) (m : EVP_MAC W).

(** C9. EVP_MAC_size returns 0, and calls nothing, for a context without
    private state; for one with private state it returns what the
    descriptor's size() returns on that state. *)
Theorem EVP_MAC_size_spec w l c :
  heap w !! l = Some (B_ctx c) ->
  (data c = NULL -> EVP_MAC_size (Some l) w = Ok 0 w) /\
  (forall m d, meth c = Some m -> data c = Some d ->
     EVP_MAC_size (Some l) w =
     Ok (meth_size m (Some d) (algo w)).1
        (with_algo (meth_size m (Some d) (algo w)).2
                   (log (Ev_entry (Call_size (Some d))) w))).
Proof.
  intros Hl. split.
  - intros Hd. unfold EVP_MAC_size. step. by rewrite Hd.
  - intros m d Hm Hd. destruct c as [mp d0]; simpl in *; subst.
    unfold EVP_MAC_size, call_size. repeat step. apply call_run.
Qed.

End Size.

Section Router.

Context {W : Type}.
Implicit Types (w : world W) (l : loc) (c : EVP_MAC_CTX W) (m : EVP_MAC W).

Lemma EVP_MAC_ctrl_null cmd args w :
  EVP_MAC_ctrl NULL cmd args w = Ok (-2) (not_supported w).
Proof. reflexivity. Qed.

Lemma EVP_MAC_ctrl_no_table cmd args w l c :
  heap w !! l = Some (B_ctx c) -> meth c = None ->
  EVP_MAC_ctrl (Some l) cmd args w = Ok (-2) (not_supported w).
Proof.
  intros Hl Hm. destruct c as [mp d]; simpl in *; subst.
  unfold EVP_MAC_ctrl. repeat step. reflexivity.
Qed.

Lemma EVP_MAC_ctrl_no_entry cmd args w l c m :
  heap w !! l = Some (B_ctx c) -> meth c = Some m -> meth_ctrl m = None ->
  EVP_MAC_ctrl (Some l) cmd args w = Ok (-2) (not_supported w).
Proof.
  intros Hl Hm Hc. destruct c as [mp d]; simpl in *; subst.
  unfold EVP_MAC_ctrl. repeat step. rewrite Hc. repeat step. reflexivity.
Qed.

Lemma EVP_MAC_ctrl_entry cmd args w l c m f :
  heap w !! l = Some (B_ctx c) -> meth c = Some m -> meth_ctrl m = Some f ->
  let r := (f (data c) cmd args (algo w)).1 in
  let w1 := with_algo (f (data c) cmd args (algo w)).2
                      (log (Ev_entry (Call_ctrl (data c) cmd args)) w) in
  EVP_MAC_ctrl (Some l) cmd args w =
  Ok r (if r =? -2 then not_supported w1 else w1).
Proof.
  intros Hl Hm Hc. destruct c as [mp d]; simpl in *; subst.
  unfold EVP_MAC_ctrl. repeat step. rewrite Hc. repeat step.
  destruct (_ =? -2); reflexivity.
Qed.

(** The router never crashes on a null or live context, and leaves the
    memory as it found it. *)
Lemma EVP_MAC_ctrl_total ctx cmd args w :
  ctx_ok w ctx ->
  exists r w', EVP_MAC_ctrl ctx cmd args w = Ok r w' /\
               heap w' = heap w /\ oracle w' = oracle w.
Proof.
  destruct ctx as [l|]; simpl.
  - intros [c Hl]. destruct (meth c) as [m|] eqn:Hm.
    + destruct (meth_ctrl m) as [f|] eqn:Hc.
      * eexists _, _. split; [by apply EVP_MAC_ctrl_entry with m|].
        by destruct (_ =? -2).
      * eexists _, _. split; [by apply EVP_MAC_ctrl_no_entry with c m|done].
    + eexists _, _. split; [by apply EVP_MAC_ctrl_no_table with c|done].
  - intros _. eexists _, _. split; [apply EVP_MAC_ctrl_null|done].
Qed.

(** C3. EVP_MAC_ctrl answers -2, having reported the error and called no
    entry of the method table, when the context is null, when its method
    table is null and when the table has no ctrl entry; otherwise it
    calls ctrl once on the private state with the command and arguments
    and returns what ctrl returned. *)
Theorem EVP_MAC_ctrl_routing cmd args w :
  EVP_MAC_ctrl NULL cmd args w = Ok (-2) (not_supported w) /\
  (forall l c, heap w !! l = Some (B_ctx c) ->
     (meth c = None ->
        EVP_MAC_ctrl (Some l) cmd args w = Ok (-2) (not_supported w)) /\
     (forall m, meth c = Some m ->
        (meth_ctrl m = None ->
           EVP_MAC_ctrl (Some l) cmd args w = Ok (-2) (not_supported w)) /\
        (forall f, meth_ctrl m = Some f ->
           let r := (f (data c) cmd args (algo w)).1 in
           let w1 := with_algo (f (data c) cmd args (algo w)).2
                       (log (Ev_entry (Call_ctrl (data c) cmd args)) w) in
           EVP_MAC_ctrl (Some l) cmd args w =
           Ok r (if r =? -2 then not_supported w1 else w1)))).
Proof.
  split; [reflexivity|]. intros l c Hl. split.
  - intros Hm. by apply EVP_MAC_ctrl_no_table with c.
  - intros m Hm. split.
    + intros Hc. by apply EVP_MAC_ctrl_no_entry with c m.
    + intros f Hf. by apply EVP_MAC_ctrl_entry with m.
Qed.

(** C8. EVP_MAC_str2ctrl answers -1 and leaves the world untouched when
    the text is longer than INT_MAX; otherwise it is the router called
    with the text and its length. *)
Theorem EVP_MAC_str2ctrl_spec ctx cmd value w :
  (INT_MAX < strlen value ->
     EVP_MAC_str2ctrl ctx cmd value w = Ok (-1) w) /\
  (strlen value <= INT_MAX ->
     EVP_MAC_str2ctrl ctx cmd value w =
     EVP_MAC_ctrl ctx cmd [VA_str value; VA_size (strlen value)] w).
Proof.
  unfold EVP_MAC_str2ctrl. split; intros H.
  - by rewrite (proj2 (Z.gtb_lt _ _) H).
  - destruct (strlen value >? INT_MAX) eqn:E; [|done].
    apply Z.gtb_lt in E. lia.
Qed.

End Router.

Section Lifecycle.

Context {W : Type}.
Implicit Types (w : world W) (l : loc) (c : EVP_MAC_CTX W) (m : EVP_MAC W).

Lemma OPENSSL_free_live w l (b : block) :
  heap w !! l = Some b ->
  OPENSSL_free (Some l) w = Ok tt (released l w).
Proof. intros H. unfold OPENSSL_free. by rewrite H. Qed.

Lemma evp_mac_ctx_cleanup_no_data w l c :
  heap w !! l = Some (B_ctx c) -> data c = NULL ->
  evp_mac_ctx_cleanup (Some l) w = Ok tt w.
Proof.
  intros Hl Hd. destruct c as [mp d]; simpl in *; subst.
  unfold evp_mac_ctx_cleanup. repeat step. reflexivity.
Qed.

Lemma evp_mac_ctx_cleanup_data w l c m d :
  heap w !! l = Some (B_ctx c) -> meth c = Some m -> data c = Some d ->
  evp_mac_ctx_cleanup (Some l) w =
  Ok tt (with_heap (<[l := B_ctx {| meth := Some m; data := NULL |}]> (heap w))
           (with_algo (meth_free m (Some d) (algo w))
              (log (Ev_entry (Call_free (Some d))) w))).
Proof.
  intros Hl Hm Hd. destruct c as [mp d0]; simpl in *; subst.
  unfold evp_mac_ctx_cleanup, call_free. repeat step.
  erewrite set_data_live by live. reflexivity.
Qed.

(** C7. EVP_MAC_CTX_free does nothing on a null context; on a context
    without private state it releases the context and calls no entry; on
    a context with private state it calls the descriptor's free() on that
    state once and then releases the context. *)
Theorem EVP_MAC_CTX_free_spec w :
  EVP_MAC_CTX_free NULL w = Ok tt w /\
  (forall l c, heap w !! l = Some (B_ctx c) ->
     (data c = NULL ->
        EVP_MAC_CTX_free (Some l) w = Ok tt (released l w)) /\
     (forall m d, meth c = Some m -> data c = Some d ->
        EVP_MAC_CTX_free (Some l) w =
        Ok tt {| heap := delete l (heap w);
                 oracle := oracle w;
                 algo := meth_free m (Some d) (algo w);
                 trace := trace w ++ [Ev_entry (Call_free (Some d));
                                      Ev_release l] |})).
Proof.
  split; [reflexivity|]. intros l c Hl. split.
  - intros Hd. unfold EVP_MAC_CTX_free.
    erewrite bind_Ok by (by apply evp_mac_ctx_cleanup_no_data with c).
    by apply OPENSSL_free_live with (B_ctx c).
  - intros m d Hm Hd. unfold EVP_MAC_CTX_free.
    erewrite bind_Ok by (by apply evp_mac_ctx_cleanup_data with c).
    erewrite OPENSSL_free_live by live.
    unfold released, log, with_heap, with_algo; cbn.
    by rewrite delete_insert_eq, <- app_assoc.
Qed.

End Lifecycle.

Section Final.

Context {W : Type}.
Implicit Types (w : world W) (l q : loc) (c : EVP_MAC_CTX W) (m : EVP_MAC W).

Lemma store_size_t_live w q old n :
  heap w !! q = Some (B_size_t old) ->
  store_size_t (Some q) n w =
  Ok tt (with_heap (<[q := B_size_t n]> (heap w)) w).
Proof. intros H. unfold store_size_t. by rewrite H. Qed.

(** A context and a size_t never share a location. *)
Lemma ctx_not_size_t w l q c old :
  heap w !! l = Some (B_ctx c) -> heap w !! q = Some (B_size_t old) -> q ≠ l.
Proof. intros Hl Hq ->. congruence. Qed.

Lemma EVP_MAC_final_query w l q c m old :
  heap w !! l = Some (B_ctx c) -> meth c = Some m ->
  heap w !! q = Some (B_size_t old) ->
  EVP_MAC_final (Some l) NULL (Some q) w = Ok 1 (size_stored m (data c) q w).
Proof.
  intros Hl Hm Hq. destruct c as [mp d]; simpl in *; subst.
  unfold EVP_MAC_final, call_size. repeat step.
  erewrite bind_Ok by (eapply store_size_t_live; live). reflexivity.
Qed.

Lemma EVP_MAC_final_tag w l q c m old o :
  heap w !! l = Some (B_ctx c) -> meth c = Some m ->
  heap w !! q = Some (B_size_t old) ->
  EVP_MAC_final (Some l) (Some o) (Some q) w =
  Ok (meth_final m (data c) (Some o) (meth_size m (data c) (algo w)).2).1
     (tag_written m (data c) (Some o) (size_stored m (data c) q w)).
Proof.
  intros Hl Hm Hq. pose proof (ctx_not_size_t _ _ _ _ _ Hl Hq) as Hne.
  destruct c as [mp d]; simpl in *; subst.
  unfold EVP_MAC_final, call_size, call_final. repeat step.
  erewrite bind_Ok by (eapply store_size_t_live; live).
  repeat step. apply call_run.
Qed.

Lemma final_calls_snoc_other t e :
  is_final_call e = false -> final_calls (t ++ [e]) = final_calls t.
Proof.
  intros H. unfold final_calls. rewrite List.filter_app. simpl.
  rewrite H. apply app_nil_r.
Qed.

(** C2. Given a non-null out-length pointer, EVP_MAC_final stores there
    what the descriptor's size() returns on the private state, whether or
    not an output buffer is given; and without an output buffer it returns
    1 and the trace has no new call of final(). *)
Theorem EVP_MAC_final_spec w l c m :
  heap w !! l = Some (B_ctx c) -> meth c = Some m ->
  (forall q old out, heap w !! q = Some (B_size_t old) ->
     exists r w',
       EVP_MAC_final (Some l) out (Some q) w = Ok r w' /\
       heap w' !! q = Some (B_size_t (meth_size m (data c) (algo w)).1)) /\
  (forall poutlen, outlen_ok w poutlen ->
     exists w',
       EVP_MAC_final (Some l) NULL poutlen w = Ok 1 w' /\
       final_calls (trace w') = final_calls (trace w)).
Proof.
  intros Hl Hm. split.
  - intros q old [o|] Hq.
    + eexists _, _. split; [by eapply EVP_MAC_final_tag|].
      cbn. apply lookup_insert_eq.
    + eexists _, _. split; [by eapply EVP_MAC_final_query|].
      cbn. apply lookup_insert_eq.
  - intros [q|] Hq.
    + destruct Hq as [old Hq]. eexists. split; [by eapply EVP_MAC_final_query|].
      cbn. by apply final_calls_snoc_other.
    + eexists. split; [reflexivity|done].
Qed.

End Final.

Section Copy.

Context {W : Type}.
Implicit Types (w : world W) (l : loc) (c : EVP_MAC_CTX W) (m : EVP_MAC W).

(** What the source holds after [*dst = *src], also when both are the
    same context. *)
Lemma src_after_struct_copy (h : gmap loc (@block W)) dst src cs :
  h !! src = Some (B_ctx cs) ->
  <[dst := B_ctx cs]> h !! src = Some (B_ctx cs).
Proof.
  intros H. destruct (decide (dst = src)) as [->|Hne].
  - apply lookup_insert_eq.
  - by rewrite lookup_insert_ne.
Qed.

Lemma EVP_MAC_CTX_copy_no_data w dst src cd cs :
  heap w !! dst = Some (B_ctx cd) -> heap w !! src = Some (B_ctx cs) ->
  data cs = NULL ->
  EVP_MAC_CTX_copy (Some dst) (Some src) w =
  Ok 1 (with_heap (<[dst := B_ctx cs]> (heap w)) w).
Proof.
  intros Hd Hs Hn. unfold EVP_MAC_CTX_copy. repeat step.
  erewrite bind_Ok
    by (apply get_data_live; cbn; by apply src_after_struct_copy).
  rewrite Hn. repeat step. reflexivity.
Qed.

Lemma EVP_MAC_CTX_copy_data w dst src cd cs m p :
  heap w !! dst = Some (B_ctx cd) -> heap w !! src = Some (B_ctx cs) ->
  meth cs = Some m -> data cs = Some p ->
  let w1 := duplicated m (Some p) dst w in
  EVP_MAC_CTX_copy (Some dst) (Some src) w =
  if is_null (meth_copy m (Some p) (algo w)).1
  then Ok 0 (log (Ev_err EVP_F_EVP_MAC_CTX_COPY ERR_R_MALLOC_FAILURE) w1)
  else Ok 1 w1.
Proof.
  intros Hd Hs Hm Hp. destruct cs as [mp sd]; simpl in *; subst.
  unfold EVP_MAC_CTX_copy, call_copy. repeat step.
  erewrite bind_Ok
    by (apply get_data_live; cbn; by apply src_after_struct_copy).
  repeat step.
  erewrite bind_Ok
    by (apply get_data_live; cbn; by apply src_after_struct_copy).
  repeat step.
  unfold duplicated, with_heap, with_algo, log; cbn.
  rewrite insert_insert_eq.
  by destruct (meth_copy m (Some p) (algo w)).1.
Qed.

(** C6. EVP_MAC_CTX_copy gives the destination the source's method
    table.  If the source has private state, the destination's private
    state is what the descriptor's copy() returns on it, and the result
    is 1, or 0 when copy() returned null; if the source has none, the
    destination has none and the result is 1. *)
Theorem EVP_MAC_CTX_copy_spec w dst src cd cs m :
  heap w !! dst = Some (B_ctx cd) -> heap w !! src = Some (B_ctx cs) ->
  meth cs = Some m ->
  exists r w',
    EVP_MAC_CTX_copy (Some dst) (Some src) w = Ok r w' /\
    match data cs with
    | None =>
        r = 1 /\
        heap w' !! dst = Some (B_ctx {| meth := Some m; data := NULL |}) /\
        trace w' = trace w
    | Some p =>
        let d := (meth_copy m (Some p) (algo w)).1 in
        r = (if is_null d then 0 else 1) /\
        heap w' !! dst = Some (B_ctx {| meth := Some m; data := d |}) /\
        algo w' = (meth_copy m (Some p) (algo w)).2
    end.
Proof.
  intros Hd Hs Hm. destruct (data cs) as [p|] eqn:Hp.
  - pose proof (EVP_MAC_CTX_copy_data _ _ _ _ _ _ _ Hd Hs Hm Hp) as E.
    cbn zeta in E. rewrite E.
    destruct (meth_copy m (Some p) (algo w)).1 eqn:Hc; cbn;
      eexists _, _; (split; [reflexivity|]); cbn; rewrite ?Hc;
      (split; [done|]); split; try done; apply lookup_insert_eq.
  - rewrite (EVP_MAC_CTX_copy_no_data _ _ _ _ _ Hd Hs Hp).
    eexists _, _. split; [reflexivity|]. cbn.
    split; [done|]. split; [|done].
    rewrite lookup_insert_eq. destruct cs; simpl in *; by subst.
Qed.

Lemma EVP_MAC_reset_no_data w l c :
  heap w !! l = Some (B_ctx c) -> data c = NULL ->
  EVP_MAC_reset (Some l) w = Ok 1 w.
Proof.
  intros Hl Hd. unfold EVP_MAC_reset. step. by rewrite Hd.
Qed.

(** C10. When the descriptor's copy() returns null, EVP_MAC_CTX_copy
    returns 0 and the destination's private-state pointer is null; a
    following EVP_MAC_reset on the destination returns 1 and a following
    EVP_MAC_CTX_free releases the destination, neither calling an entry
    of the method table. *)
Theorem EVP_MAC_CTX_copy_failure_leaves_null w dst src cd cs m p :
  heap w !! dst = Some (B_ctx cd) -> heap w !! src = Some (B_ctx cs) ->
  meth cs = Some m -> data cs = Some p ->
  (meth_copy m (Some p) (algo w)).1 = NULL ->
  exists w',
    EVP_MAC_CTX_copy (Some dst) (Some src) w = Ok 0 w' /\
    heap w' !! dst = Some (B_ctx {| meth := Some m; data := NULL |}) /\
    EVP_MAC_reset (Some dst) w' = Ok 1 w' /\
    EVP_MAC_CTX_free (Some dst) w' = Ok tt (released dst w').
Proof.
  intros Hd Hs Hm Hp Hc.
  pose proof (EVP_MAC_CTX_copy_data _ _ _ _ _ _ _ Hd Hs Hm Hp) as E.
  cbn zeta in E. rewrite Hc in E. cbn in E.
  eexists. split; [exact E|].
  assert (Hl : heap (log (Ev_err EVP_F_EVP_MAC_CTX_COPY ERR_R_MALLOC_FAILURE)
                       (duplicated m (Some p) dst w)) !! dst
               = Some (B_ctx {| meth := Some m; data := NULL |})).
  { cbn. rewrite Hc. apply lookup_insert_eq. }
  split; [exact Hl|]. split.
  - by eapply EVP_MAC_reset_no_data.
  - unfold EVP_MAC_CTX_free.
    erewrite bind_Ok by (by eapply evp_mac_ctx_cleanup_no_data).
    by eapply OPENSSL_free_live.
Qed.

End Copy.

Section Allocation.

Context {W : Type}.
Implicit Types (w : world W) (l : loc) (c : EVP_MAC_CTX W) (m : EVP_MAC W).

Lemma fresh_free w : heap w !! fresh (dom (heap w)) = None.
Proof. apply not_elem_of_dom, is_fresh. Qed.

Lemma malloc_ok w (b : block) o :
  oracle w = true :: o ->
  malloc b w =
  Ok (Some (fresh (dom (heap w))))
     (log (Ev_alloc (Some (fresh (dom (heap w)))))
        (with_oracle o (with_heap (<[fresh (dom (heap w)) := b]> (heap w)) w))).
Proof. intros H. unfold malloc. by rewrite H. Qed.

Lemma malloc_fail w (b : block) :
  hd false (oracle w) = false ->
  malloc b w = Ok NULL (log (Ev_alloc NULL) (with_oracle (tl (oracle w)) w)).
Proof.
  destruct w as [h [|[] o] a t]; unfold malloc; simpl; intros H;
    by try discriminate.
Qed.

(** A block that was live before an allocation is live after it. *)
Lemma live_after_alloc (h : gmap loc (@block W)) l (b b' : block) :
  h !! l = Some b -> <[fresh (dom h) := b']> h !! l = Some b.
Proof.
  intros H. rewrite lookup_insert_ne; [done|].
  intros E. subst l. by rewrite (not_elem_of_dom_1 _ _ (is_fresh (dom h))) in H.
Qed.

Lemma EVP_MAC_CTX_new_alloc_failure (mac : option (EVP_MAC W)) w :
  hd false (oracle w) = false ->
  EVP_MAC_CTX_new mac w = Crash NullDeref.
Proof.
  intros H. unfold EVP_MAC_CTX_new, OPENSSL_zalloc_ctx.
  erewrite bind_Ok by (by apply malloc_fail). reflexivity.
Qed.

Lemma EVP_MAC_CTX_new_construct_failure m w o :
  oracle w = true :: o -> (meth_new m (algo w)).1 = NULL ->
  EVP_MAC_CTX_new (Some m) w = Crash NullDeref.
Proof.
  intros Ho Hn. unfold EVP_MAC_CTX_new, OPENSSL_zalloc_ctx, call_new.
  erewrite bind_Ok by (by apply malloc_ok). repeat step.
  autorewrite with world. rewrite Hn. repeat step.
  erewrite bind_Ok by (eapply OPENSSL_free_live; live).
  reflexivity.
Qed.

Lemma EVP_MAC_CTX_new_success m w o d :
  oracle w = true :: o -> (meth_new m (algo w)).1 = Some d ->
  let b := fresh (dom (heap w)) in
  EVP_MAC_CTX_new (Some m) w =
  Ok (Some b)
     {| heap := <[b := B_ctx {| meth := Some m; data := Some d |}]> (heap w);
        oracle := o;
        algo := (meth_new m (algo w)).2;
        trace := trace w ++ [Ev_alloc (Some b); Ev_entry Call_new] |}.
Proof.
  intros Ho Hn. unfold EVP_MAC_CTX_new, OPENSSL_zalloc_ctx, call_new.
  erewrite bind_Ok by (by apply malloc_ok). repeat step.
  autorewrite with world. rewrite Hn. repeat step.
  unfold with_heap, with_algo, with_oracle, log; cbn.
  by rewrite !insert_insert_eq, <- app_assoc.
Qed.

End Allocation.

(** C1, on the code.  When the allocation of the context fails, and when
    the allocation succeeds but new() returns null, EVP_MAC_CTX_new does
    not return: it stores the method table through the pointer it has
    just set to null. *)
Theorem EVP_MAC_CTX_new_failure_crashes :
  EVP_MAC_CTX_new (Some tally_plain) (start [false])
    = Crash NullDeref /\
  EVP_MAC_CTX_new (Some tally_plain) (start [])
    = Crash NullDeref /\
  EVP_MAC_CTX_new (Some (tally_mac NULL None)) (start [true])
    = Crash NullDeref.
Proof.
  split; [|split].
  - by apply EVP_MAC_CTX_new_alloc_failure.
  - by apply EVP_MAC_CTX_new_alloc_failure.
  - by apply EVP_MAC_CTX_new_construct_failure with [].
Qed.

Section Hex.

Context {W : Type}.
Variable decode : string -> option (list byte * Z).
Implicit Types (w : world W) (l : loc) (c : EVP_MAC_CTX W) (m : EVP_MAC W).

Lemma OPENSSL_hexstr2buf_invalid hex w :
  decode hex = None ->
  OPENSSL_hexstr2buf decode hex w = Ok (NULL, 0) w.
Proof. intros H. unfold OPENSSL_hexstr2buf. by rewrite H. Qed.

Lemma OPENSSL_hexstr2buf_decoded hex w bs binlen o :
  decode hex = Some (bs, binlen) -> oracle w = true :: o ->
  OPENSSL_hexstr2buf decode hex w =
  Ok (Some (fresh (dom (heap w))), binlen) (buffer_at bs o w).
Proof.
  intros H Ho. unfold OPENSSL_hexstr2buf. rewrite H.
  by erewrite bind_Ok by (by apply malloc_ok).
Qed.

Lemma ctx_ok_buffer_at w ctx bs o :
  ctx_ok w ctx -> ctx_ok (buffer_at bs o w) ctx.
Proof.
  destruct ctx as [l|]; [|done]. intros [c Hl]. exists c.
  cbn. by apply live_after_alloc.
Qed.

Lemma released_buffer_at_heap w bs o :
  heap (released (fresh (dom (heap w))) (buffer_at bs o w)) = heap w.
Proof. cbn. apply delete_insert_id, fresh_free. Qed.

(** C5. EVP_MAC_hex2ctrl returns 0 when the text does not decode.  With
    a decoded buffer [b] of length [binlen]: beyond INT_MAX it returns -1
    and the router is not called; otherwise the router is called with the
    buffer and its length while the buffer holds the decoded bytes, and
    its result is returned.  Either way the buffer is released last and
    the memory is what it was before the call. *)
Theorem EVP_MAC_hex2ctrl_spec ctx cmd hex w :
  (decode hex = None -> EVP_MAC_hex2ctrl decode ctx cmd hex w = Ok 0 w) /\
  (forall bs binlen o,
     decode hex = Some (bs, binlen) -> oracle w = true :: o ->
     let b := fresh (dom (heap w)) in
     let w1 := buffer_at bs o w in
     heap w1 !! b = Some (B_buf bs) /\
     (INT_MAX < binlen ->
        EVP_MAC_hex2ctrl decode ctx cmd hex w = Ok (-1) (released b w1) /\
        heap (released b w1) = heap w) /\
     (0 <= binlen <= INT_MAX -> ctx_ok w ctx ->
        exists r w2,
          EVP_MAC_ctrl ctx cmd [VA_ptr (Some b); VA_size binlen] w1 = Ok r w2 /\
          EVP_MAC_hex2ctrl decode ctx cmd hex w = Ok r (released b w2) /\
          heap (released b w2) = heap w)).
Proof.
  split.
  - intros H. unfold EVP_MAC_hex2ctrl.
    by erewrite bind_Ok by (by apply OPENSSL_hexstr2buf_invalid).
  - intros bs binlen o H Ho b w1.
    assert (Hb : heap w1 !! b = Some (B_buf bs)) by apply lookup_insert_eq.
    split; [exact Hb|]. split.
    + intros Hbig. unfold EVP_MAC_hex2ctrl.
      erewrite bind_Ok by (by eapply OPENSSL_hexstr2buf_decoded).
      repeat step. rewrite (proj2 (Z.leb_gt _ _) Hbig). repeat step.
      erewrite bind_Ok by (by eapply OPENSSL_free_live).
      split; [reflexivity|]. apply released_buffer_at_heap.
    + intros Hlen Hctx.
      destruct (EVP_MAC_ctrl_total ctx cmd
                  [VA_ptr (Some b); VA_size binlen] w1)
        as (r & w2 & Hrun & Hheap & _).
      { by apply ctx_ok_buffer_at. }
      exists r, w2. split; [exact Hrun|].
      assert (Hb2 : heap w2 !! b = Some (B_buf bs)) by by rewrite Hheap.
      split.
      * unfold EVP_MAC_hex2ctrl.
        erewrite bind_Ok by (by eapply OPENSSL_hexstr2buf_decoded).
        repeat step. rewrite (proj2 (Z.leb_le _ _) (proj2 Hlen)).
        unfold size_t_of_long. rewrite Z.mod_small by (unfold INT_MAX in *; lia).
        fold b. fold w1. erewrite bind_Ok by exact Hrun.
        by erewrite bind_Ok by (by eapply OPENSSL_free_live).
      * unfold released. autorewrite with world. rewrite Hheap.
        apply delete_insert_id, fresh_free.
Qed.

Lemma EVP_MAC_hex2ctrl_alloc_failure ctx cmd hex w :
  hd false (oracle w) = false ->
  exists w', EVP_MAC_hex2ctrl decode ctx cmd hex w = Ok 0 w' /\
             heap w' = heap w.
Proof.
  intros Ho. unfold EVP_MAC_hex2ctrl, OPENSSL_hexstr2buf.
  destruct (decode hex) as [[bs binlen]|].
  - rewrite bind_assoc. erewrite bind_Ok by (by apply malloc_fail).
    eexists. split; reflexivity.
  - eexists. split; reflexivity.
Qed.

End Hex.

(** * The one-shot operation *)

Section OneShot.

Context {W : Type}.
Variable SET_KEY : Z.
Implicit Types (w : world W) (l b : loc) (c : EVP_MAC_CTX W) (m : EVP_MAC W).

Lemma safe_ret {A} (I : world W -> Prop) (a : A) : safe I (ret a).
Proof. intros w Hw. by exists a, w. Qed.

Lemma safe_bind {A B} (I : world W -> Prop) (c : M W A) (k : A -> M W B) :
  safe I c -> (forall a, safe I (k a)) -> safe I (c ≫= k).
Proof.
  intros Hc Hk w Hw. destruct (Hc w Hw) as (a & w1 & E & H1).
  destruct (Hk a w1 H1) as (r & w2 & E2 & H2).
  exists r, w2. split; [|done]. by rewrite (bind_Ok _ _ _ _ _ E).
Qed.

Lemma safe_orelse (I : world W -> Prop) (x y : M W bool) :
  safe I x -> safe I y -> safe I (orelse x y).
Proof.
  intros Hx Hy. unfold orelse. apply safe_bind; [done|].
  intros [|]; [apply safe_ret|done].
Qed.

Lemma safe_init m b d poutlen :
  safe (running m b d poutlen) (EVP_MAC_init (Some b)).
Proof.
  intros w [Hb Hq]. eexists _, _. split.
  - unfold EVP_MAC_init, call_init. repeat step. apply call_run.
  - split; [exact Hb|]. by destruct poutlen.
Qed.

Lemma safe_update m b d poutlen dat datalen :
  safe (running m b d poutlen) (EVP_MAC_update (Some b) dat datalen).
Proof.
  intros w [Hb Hq]. eexists _, _. split.
  - unfold EVP_MAC_update, call_update. repeat step. apply call_run.
  - split; [exact Hb|]. by destruct poutlen.
Qed.

Lemma safe_ctrl m b d poutlen cmd args :
  safe (running m b d poutlen) (EVP_MAC_ctrl (Some b) cmd args).
Proof.
  intros w [Hb Hq].
  destruct (EVP_MAC_ctrl_total (Some b) cmd args w) as (r & w' & E & Hh & _).
  { by eexists. }
  exists r, w'. split; [exact E|]. unfold running, outlen_ok. by rewrite Hh.
Qed.

Lemma safe_final m b d poutlen out :
  safe (running m b d poutlen) (EVP_MAC_final (Some b) out poutlen).
Proof.
  intros w [Hb Hq]. destruct poutlen as [q|]; simpl in Hq.
  - destruct Hq as [old Hq].
    pose proof (ctx_not_size_t _ _ _ _ _ Hb Hq) as Hne.
    assert (Hr : running m b d (Some q)
                   (size_stored m (Some d) q w)).
    { split; cbn; [by rewrite lookup_insert_ne|].
      eexists. apply lookup_insert_eq. }
    destruct out as [o|].
    + eexists _, _. split; [by eapply (EVP_MAC_final_tag w b q)|].
      exact Hr.
    + eexists _, _. split; [by eapply (EVP_MAC_final_query w b q)|].
      exact Hr.
  - destruct out as [o|].
    + eexists _, _. split.
      * unfold EVP_MAC_final, call_final. repeat step. apply call_run.
      * by split.
    + exists 1, w. by split.
Qed.

(** Once EVP_MAC_CTX_new has succeeded, EVP_MAC_oneshot returns 0 or 1
    whatever the steps answer, having called free() on the private state
    and released the context last. *)
Lemma EVP_MAC_oneshot_releases m w o d key keylen dat datalen out poutlen :
  oracle w = true :: o -> (meth_new m (algo w)).1 = Some d ->
  outlen_ok w poutlen ->
  let b := fresh (dom (heap w)) in
  exists r w' t,
    EVP_MAC_oneshot SET_KEY (Some m) key keylen dat datalen out poutlen w
      = Ok r w' /\
    (r = 0 \/ r = 1) /\
    heap w' !! b = None /\
    trace w' = t ++ [Ev_entry (Call_free (Some d)); Ev_release b].
Proof.
  intros Ho Hn Hq b. unfold EVP_MAC_oneshot.
  erewrite bind_Ok by (by eapply EVP_MAC_CTX_new_success).
  match goal with |- context [ (orelse ?x ?y ≫= _) ?w1 ] =>
    destruct (safe_orelse (running m b d poutlen) x y) with (w := w1)
      as (failed & w2 & E & Hb & _)
  end.
  - apply safe_ret.
  - repeat apply safe_orelse;
      (apply safe_bind; [|intros; apply safe_ret]).
    + apply safe_init.
    + apply safe_ctrl.
    + apply safe_update.
    + apply safe_final.
  - split; cbn; [apply lookup_insert_eq|].
    destruct poutlen as [q|]; [|done]. destruct Hq as [old Hq].
    exists old. by apply live_after_alloc.
  - erewrite bind_Ok by exact E. cbn zeta. unfold EVP_MAC_CTX_free.
    rewrite bind_assoc. erewrite bind_Ok
      by (by eapply (evp_mac_ctx_cleanup_data w2 b _ m d)).
    erewrite bind_Ok by (eapply OPENSSL_free_live; live).
    eexists _, _, (trace w2). split; [reflexivity|]. split.
    + destruct failed; auto.
    + split; cbn; [apply lookup_delete_eq|by rewrite <- app_assoc].
Qed.

(** The set-key step answered -2 and the operation still succeeds: a
    table without a ctrl entry, whose other entries succeed, gets 1 from
    EVP_MAC_oneshot, update() having been called after the refusal. *)
Lemma EVP_MAC_oneshot_unsupported_set_key m w o d key keylen dat datalen :
  oracle w = true :: o -> (meth_new m (algo w)).1 = Some d ->
  meth_ctrl m = None ->
  (meth_init m (Some d) (meth_new m (algo w)).2).1 <> 0 ->
  (meth_update m (Some d) dat datalen
     (meth_init m (Some d) (meth_new m (algo w)).2).2).1 <> 0 ->
  exists w',
    EVP_MAC_oneshot SET_KEY (Some m) key keylen dat datalen NULL NULL w
      = Ok 1 w' /\
    In (Ev_err EVP_F_EVP_MAC_CTRL EVP_R_COMMAND_NOT_SUPPORTED) (trace w') /\
    In (Ev_entry (Call_update (Some d) dat datalen)) (trace w').
Proof.
  intros Ho Hn Hc Hi Hu. unfold EVP_MAC_oneshot.
  erewrite bind_Ok by (by eapply EVP_MAC_CTX_new_success).
  set (b := fresh (dom (heap w))).
  unfold EVP_MAC_init, EVP_MAC_update, call_init, call_update, lnot.
  repeat step. autorewrite with world. cbn [algo].
  rewrite (proj2 (Z.eqb_neq _ _) Hi). repeat step.
  erewrite bind_Ok by (eapply EVP_MAC_ctrl_no_entry; [live|reflexivity|done]).
  change (-2 =? 0) with false. cbv iota. unfold not_supported.
  repeat step. autorewrite with world. cbn [algo].
  rewrite (proj2 (Z.eqb_neq _ _) Hu). repeat step.
  unfold EVP_MAC_CTX_free. rewrite bind_assoc.
  erewrite bind_Ok
    by (eapply (evp_mac_ctx_cleanup_data _ b _ m d); [live|done|done]).
  erewrite bind_Ok by (eapply OPENSSL_free_live; live).
  eexists. split; [reflexivity|].
  cbn. rewrite !in_app_iff. cbn. naive_solver.
Qed.

(** When EVP_MAC_CTX_new does not return, neither does the one-shot
    operation. *)
Lemma EVP_MAC_oneshot_create_failure m w key keylen dat datalen out poutlen :
  hd false (oracle w) = false \/
  (exists o, oracle w = true :: o /\ (meth_new m (algo w)).1 = NULL) ->
  EVP_MAC_oneshot SET_KEY (Some m) key keylen dat datalen out poutlen w
    = Crash NullDeref.
Proof.
  intros H. unfold EVP_MAC_oneshot. apply bind_Crash.
  destruct H as [H|(o & Ho & Hn)].
  - by apply EVP_MAC_CTX_new_alloc_failure.
  - by apply EVP_MAC_CTX_new_construct_failure with o.
Qed.

End OneShot.

(** C4, on the code.  With a method table that has no ctrl entry, and
    with one whose ctrl answers -2 to the set-key command, the router's
    -2 is read as "true": EVP_MAC_oneshot goes on to update() and final()
    and returns 1.  With a table whose new() returns null, it does not
    return at all. *)
Theorem EVP_MAC_oneshot_failures :
  EVP_MAC_oneshot 1 (Some tally_plain)
      (Some 20%positive) 16 (Some 21%positive) 3 (Some 22%positive) NULL
      (start [true])
    = Ok 1 {| heap := ∅; oracle := []; algo := 3;
              trace :=
                [Ev_alloc (Some 1%positive); Ev_entry Call_new;
                 Ev_entry (Call_init (Some 9%positive));
                 Ev_err EVP_F_EVP_MAC_CTRL EVP_R_COMMAND_NOT_SUPPORTED;
                 Ev_entry (Call_update (Some 9%positive) (Some 21%positive) 3);
                 Ev_entry (Call_final (Some 9%positive) (Some 22%positive));
                 Ev_entry (Call_free (Some 9%positive));
                 Ev_release 1%positive] |} /\
  EVP_MAC_oneshot 2 (Some tally)
      (Some 20%positive) 16 (Some 21%positive) 3 (Some 22%positive) NULL
      (start [true])
    = Ok 1 {| heap := ∅; oracle := []; algo := 3;
              trace :=
                [Ev_alloc (Some 1%positive); Ev_entry Call_new;
                 Ev_entry (Call_init (Some 9%positive));
                 Ev_entry (Call_ctrl (Some 9%positive) 2
                             [VA_ptr (Some 20%positive); VA_size 16]);
                 Ev_err EVP_F_EVP_MAC_CTRL EVP_R_COMMAND_NOT_SUPPORTED;
                 Ev_entry (Call_update (Some 9%positive) (Some 21%positive) 3);
                 Ev_entry (Call_final (Some 9%positive) (Some 22%positive));
                 Ev_entry (Call_free (Some 9%positive));
                 Ev_release 1%positive] |} /\
  EVP_MAC_oneshot 1 (Some (tally_mac NULL (Some tally_ctrl)))
      (Some 20%positive) 16 (Some 21%positive) 3 (Some 22%positive) NULL
      (start [true])
    = Crash NullDeref.
Proof. repeat split; vm_compute; reflexivity. Qed.

(** * The theorems at work on the sample algorithm *)

Lemma EVP_MAC_size_spec_witness :
  EVP_MAC_size (Some 1%positive) (one_ctx tally NULL [])
    = Ok 0 (one_ctx tally NULL []) /\
  EVP_MAC_size (Some 1%positive) (one_ctx tally (Some 9%positive) [])
    = Ok 8 (log (Ev_entry (Call_size (Some 9%positive)))
              (one_ctx tally (Some 9%positive) [])).
Proof.
  split.
  - apply (proj1 (EVP_MAC_size_spec (one_ctx tally NULL []) 1%positive
                    {| meth := Some tally; data := NULL |} eq_refl)).
    reflexivity.
  - apply (proj2 (EVP_MAC_size_spec (one_ctx tally (Some 9%positive) [])
                    1%positive
                    {| meth := Some tally; data := Some 9%positive |} eq_refl)
             tally 9%positive); reflexivity.
Defined.

Lemma EVP_MAC_final_spec_witness :
  (exists r w',
     EVP_MAC_final (Some 1%positive) (Some 30%positive) (Some 2%positive)
       (ctx_and_size_t tally (Some 9%positive)) = Ok r w' /\
     heap w' !! 2%positive = Some (B_size_t 8)) /\
  (exists w',
     EVP_MAC_final (Some 1%positive) NULL (Some 2%positive)
       (ctx_and_size_t tally (Some 9%positive)) = Ok 1 w' /\
     final_calls (trace w') = []).
Proof.
  destruct (EVP_MAC_final_spec (ctx_and_size_t tally (Some 9%positive))
              1%positive {| meth := Some tally; data := Some 9%positive |}
              tally eq_refl eq_refl) as [H1 H2].
  split.
  - exact (H1 2%positive 0 (Some 30%positive) eq_refl).
  - apply (H2 (Some 2%positive)). exists 0. reflexivity.
Defined.

Lemma EVP_MAC_ctrl_routing_witness :
  EVP_MAC_ctrl (Some 1%positive) 1 [VA_size 16]
      (one_ctx tally_plain (Some 9%positive) [])
    = Ok (-2) (not_supported (one_ctx tally_plain (Some 9%positive) [])) /\
  EVP_MAC_ctrl (Some 1%positive) 1 [VA_size 16]
      (one_ctx tally (Some 9%positive) [])
    = Ok 1 (log (Ev_entry (Call_ctrl (Some 9%positive) 1 [VA_size 16]))
              (one_ctx tally (Some 9%positive) [])).
Proof.
  split.
  - apply (proj1 (proj2 (proj2 (EVP_MAC_ctrl_routing 1 [VA_size 16]
                                  (one_ctx tally_plain (Some 9%positive) []))
                           1%positive
                           {| meth := Some tally_plain;
                              data := Some 9%positive |} eq_refl)
                    tally_plain eq_refl)).
    reflexivity.
  - apply (proj2 (proj2 (proj2 (EVP_MAC_ctrl_routing 1 [VA_size 16]
                                  (one_ctx tally (Some 9%positive) []))
                           1%positive
                           {| meth := Some tally;
                              data := Some 9%positive |} eq_refl)
                    tally eq_refl) tally_ctrl).
    reflexivity.
Defined.

Lemma EVP_MAC_str2ctrl_spec_witness :
  EVP_MAC_str2ctrl (Some 1%positive) 1 "key"
      (one_ctx tally (Some 9%positive) [])
    = EVP_MAC_ctrl (Some 1%positive) 1 [VA_str "key"; VA_size 3]
        (one_ctx tally (Some 9%positive) []).
Proof.
  apply (proj2 (EVP_MAC_str2ctrl_spec (Some 1%positive) 1 "key"
                  (one_ctx tally (Some 9%positive) []))).
  vm_compute. discriminate.
Defined.

Lemma EVP_MAC_CTX_free_spec_witness :
  EVP_MAC_CTX_free (Some 1%positive) (one_ctx tally (Some 9%positive) [])
    = Ok tt {| heap := ∅; oracle := []; algo := 0;
               trace := [Ev_entry (Call_free (Some 9%positive));
                         Ev_release 1%positive] |} /\
  EVP_MAC_CTX_free (Some 1%positive) (one_ctx tally NULL [])
    = Ok tt {| heap := ∅; oracle := []; algo := 0;
               trace := [Ev_release 1%positive] |}.
Proof.
  split.
  - exact (proj2 (proj2 (EVP_MAC_CTX_free_spec
                           (one_ctx tally (Some 9%positive) []))
                    1%positive
                    {| meth := Some tally; data := Some 9%positive |} eq_refl)
             tally 9%positive eq_refl eq_refl).
  - exact (proj1 (proj2 (EVP_MAC_CTX_free_spec (one_ctx tally NULL []))
                    1%positive
                    {| meth := Some tally; data := NULL |} eq_refl)
             eq_refl).
Defined.

Lemma EVP_MAC_CTX_copy_spec_witness :
  exists r w',
    EVP_MAC_CTX_copy (Some 2%positive) (Some 1%positive)
      (two_ctx tally (Some 9%positive)) = Ok r w' /\
    r = 1 /\
    heap w' !! 2%positive
      = Some (B_ctx {| meth := Some tally; data := Some 10%positive |}) /\
    algo w' = 0.
Proof.
  exact (EVP_MAC_CTX_copy_spec (two_ctx tally (Some 9%positive))
           2%positive 1%positive
           {| meth := None; data := NULL |}
           {| meth := Some tally; data := Some 9%positive |}
           tally eq_refl eq_refl eq_refl).
Defined.

Lemma EVP_MAC_CTX_copy_failure_leaves_null_witness :
  exists w',
    EVP_MAC_CTX_copy (Some 2%positive) (Some 1%positive)
      (two_ctx no_copy_mac (Some 9%positive)) = Ok 0 w' /\
    heap w' !! 2%positive
      = Some (B_ctx {| meth := Some no_copy_mac; data := NULL |}) /\
    EVP_MAC_reset (Some 2%positive) w' = Ok 1 w' /\
    EVP_MAC_CTX_free (Some 2%positive) w' = Ok tt (released 2%positive w').
Proof.
  exact (EVP_MAC_CTX_copy_failure_leaves_null
           (two_ctx no_copy_mac (Some 9%positive))
           2%positive 1%positive
           {| meth := None; data := NULL |}
           {| meth := Some no_copy_mac; data := Some 9%positive |}
           no_copy_mac 9%positive eq_refl eq_refl eq_refl eq_refl eq_refl).
Defined.

Lemma EVP_MAC_hex2ctrl_spec_witness :
  EVP_MAC_hex2ctrl hex_pairs (Some 1%positive) 1 "gg"
      (one_ctx tally (Some 9%positive) [true])
    = Ok 0 (one_ctx tally (Some 9%positive) [true]) /\
  (exists r w2,
     EVP_MAC_ctrl (Some 1%positive) 1 [VA_ptr (Some 2%positive); VA_size 2]
       (buffer_at [x00; xff] [] (one_ctx tally (Some 9%positive) [true]))
       = Ok r w2 /\
     EVP_MAC_hex2ctrl hex_pairs (Some 1%positive) 1 "00ff"
       (one_ctx tally (Some 9%positive) [true])
       = Ok r (released 2%positive w2) /\
     heap (released 2%positive w2)
       = heap (one_ctx tally (Some 9%positive) [true])) /\
  EVP_MAC_hex2ctrl hex_huge (Some 1%positive) 1 "00ff"
      (one_ctx tally (Some 9%positive) [true])
    = Ok (-1) (released 2%positive
                 (buffer_at [] [] (one_ctx tally (Some 9%positive) [true]))).
Proof.
  split; [|split].
  - apply (proj1 (EVP_MAC_hex2ctrl_spec hex_pairs (Some 1%positive) 1 "gg"
                    (one_ctx tally (Some 9%positive) [true]))).
    reflexivity.
  - apply (proj2 (proj2 (proj2 (EVP_MAC_hex2ctrl_spec hex_pairs
                                  (Some 1%positive) 1 "00ff"
                                  (one_ctx tally (Some 9%positive) [true]))
                           [x00; xff] 2 [] eq_refl eq_refl))).
    + unfold INT_MAX. lia.
    + exists {| meth := Some tally; data := Some 9%positive |}. reflexivity.
  - apply (proj1 (proj2 (proj2 (EVP_MAC_hex2ctrl_spec hex_huge
                                  (Some 1%positive) 1 "00ff"
                                  (one_ctx tally (Some 9%positive) [true]))
                           [] (INT_MAX + 1) [] eq_refl eq_refl))).
    lia.
Defined.

(** * Further properties of the dispatch layer *)

Section Create.

Context {W : Type}.
Implicit Types (w : world W) (l b : loc) (c : EVP_MAC_CTX W) (m : EVP_MAC W).

(** X1. When the allocation succeeds and new() returns a state,
    EVP_MAC_CTX_new returns a pointer that was not live before, to a
    context holding the method table and that state; every other block
    is as it was, and the only calls are the allocation and new(). *)
Theorem EVP_MAC_CTX_new_returns_context m w o d :
  oracle w = true :: o -> (meth_new m (algo w)).1 = Some d ->
  exists b w',
    EVP_MAC_CTX_new (Some m) w = Ok (Some b) w' /\
    heap w !! b = None /\
    heap w' !! b = Some (B_ctx {| meth := Some m; data := Some d |}) /\
    (forall l, l ≠ b -> heap w' !! l = heap w !! l) /\
    oracle w' = o /\
    algo w' = (meth_new m (algo w)).2 /\
    trace w' = trace w ++ [Ev_alloc (Some b); Ev_entry Call_new].
Proof.
  intros Ho Hn. eexists _, _. split; [by eapply EVP_MAC_CTX_new_success|].
  cbn. split; [apply fresh_free|]. split; [apply lookup_insert_eq|].
  split; [|done]. intros l Hl. by rewrite lookup_insert_ne.
Qed.

(** X7. Create followed by Free: new() and then free() on the state new()
    returned, and the memory is what it was before. *)
Theorem EVP_MAC_CTX_new_then_free m w o d :
  oracle w = true :: o -> (meth_new m (algo w)).1 = Some d ->
  let b := fresh (dom (heap w)) in
  (EVP_MAC_CTX_new (Some m) ≫= EVP_MAC_CTX_free) w =
  Ok tt {| heap := heap w;
           oracle := o;
           algo := meth_free m (Some d) (meth_new m (algo w)).2;
           trace := trace w ++ [Ev_alloc (Some b); Ev_entry Call_new;
                                Ev_entry (Call_free (Some d));
                                Ev_release b] |}.
Proof.
  intros Ho Hn b.
  erewrite bind_Ok by (by eapply EVP_MAC_CTX_new_success).
  unfold EVP_MAC_CTX_free.
  erewrite bind_Ok
    by (eapply (evp_mac_ctx_cleanup_data _ _ _ m d); [live|done|done]).
  erewrite OPENSSL_free_live by live.
  unfold released, log, with_heap, with_algo; cbn.
  rewrite delete_insert_eq, delete_insert_id by apply fresh_free.
  by rewrite <- !app_assoc.
Qed.


End Create.

Section Streaming.

Context {W : Type}.
Implicit Types (w : world W) (l q : loc) (c : EVP_MAC_CTX W) (m : EVP_MAC W).

(** X2. EVP_MAC_reset answers 1 and calls nothing on a context without
    private state; with private state it returns what the descriptor's
    reset() returns on it. *)
Theorem EVP_MAC_reset_spec w l c :
  heap w !! l = Some (B_ctx c) ->
  (data c = NULL -> EVP_MAC_reset (Some l) w = Ok 1 w) /\
  (forall m d, meth c = Some m -> data c = Some d ->
     EVP_MAC_reset (Some l) w =
     Ok (meth_reset m (Some d) (algo w)).1
        (with_algo (meth_reset m (Some d) (algo w)).2
                   (log (Ev_entry (Call_reset (Some d))) w))).
Proof.
  intros Hl. split.
  - intros Hd. by apply EVP_MAC_reset_no_data with c.
  - intros m d Hm Hd. destruct c as [mp d0]; simpl in *; subst.
    unfold EVP_MAC_reset, call_reset. repeat step. apply call_run.
Qed.

Lemma EVP_MAC_init_run w l c m :
  heap w !! l = Some (B_ctx c) -> meth c = Some m ->
  EVP_MAC_init (Some l) w =
  Ok (meth_init m (data c) (algo w)).1
     (with_algo (meth_init m (data c) (algo w)).2
                (log (Ev_entry (Call_init (data c))) w)).
Proof.
  intros Hl Hm. destruct c as [mp d]; simpl in *; subst.
  unfold EVP_MAC_init, call_init. repeat step. apply call_run.
Qed.

Lemma EVP_MAC_update_run w l c m dat datalen :
  heap w !! l = Some (B_ctx c) -> meth c = Some m ->
  EVP_MAC_update (Some l) dat datalen w =
  Ok (meth_update m (data c) dat datalen (algo w)).1
     (with_algo (meth_update m (data c) dat datalen (algo w)).2
                (log (Ev_entry (Call_update (data c) dat datalen)) w)).
Proof.
  intros Hl Hm. destruct c as [mp d]; simpl in *; subst.
  unfold EVP_MAC_update, call_update. repeat step. apply call_run.
Qed.

(** X4. EVP_MAC_init and EVP_MAC_update have no test on the private
    state: whatever ctx->data is, null included, the descriptor's entry is
    called with it and its result returned. *)
Theorem EVP_MAC_init_update_unguarded w l c m dat datalen :
  heap w !! l = Some (B_ctx c) -> meth c = Some m ->
  EVP_MAC_init (Some l) w =
    Ok (meth_init m (data c) (algo w)).1
       (with_algo (meth_init m (data c) (algo w)).2
                  (log (Ev_entry (Call_init (data c))) w)) /\
  EVP_MAC_update (Some l) dat datalen w =
    Ok (meth_update m (data c) dat datalen (algo w)).1
       (with_algo (meth_update m (data c) dat datalen (algo w)).2
                  (log (Ev_entry (Call_update (data c) dat datalen)) w)).
Proof.
  intros Hl Hm. split.
  - by apply EVP_MAC_init_run.
  - by apply EVP_MAC_update_run.
Qed.

(** X16. EVP_MAC_final with a buffer.  Without an out-length pointer only
    final() is called and nothing is stored; with one, size() is called
    first and final() runs on the state size() left, the length being in
    place when final() starts. *)
Theorem EVP_MAC_final_with_buffer w l c m o :
  heap w !! l = Some (B_ctx c) -> meth c = Some m ->
  EVP_MAC_final (Some l) (Some o) NULL w =
    Ok (meth_final m (data c) (Some o) (algo w)).1
       (tag_written m (data c) (Some o) w) /\
  (forall q old, heap w !! q = Some (B_size_t old) ->
     exists r w',
       EVP_MAC_final (Some l) (Some o) (Some q) w = Ok r w' /\
       r = (meth_final m (data c) (Some o)
              (meth_size m (data c) (algo w)).2).1 /\
       heap w' = <[q := B_size_t (meth_size m (data c) (algo w)).1]> (heap w) /\
       trace w' = trace w ++ [Ev_entry (Call_size (data c));
                              Ev_entry (Call_final (data c) (Some o))]).
Proof.
  intros Hl Hm. split.
  - destruct c as [mp d]; simpl in *; subst.
    unfold EVP_MAC_final, call_final. repeat step. apply call_run.
  - intros q old Hq. eexists _, _.
    split; [by eapply EVP_MAC_final_tag|]. split; [done|].
    split; [done|]. cbn. by rewrite <- app_assoc.
Qed.

(** X5. Which operations look at the context pointer before they use it.
    EVP_MAC_reset, _size, _init, _update and _CTX_copy read through a null
    context, and so does EVP_MAC_final as soon as a buffer or an
    out-length pointer is given; EVP_MAC_final with neither answers 1. *)
Theorem null_context_is_dereferenced w dat datalen out q o :
  EVP_MAC_reset NULL w = Crash NullDeref /\
  EVP_MAC_size NULL w = Crash NullDeref /\
  EVP_MAC_init NULL w = Crash NullDeref /\
  EVP_MAC_update NULL dat datalen w = Crash NullDeref /\
  EVP_MAC_final NULL out (Some q) w = Crash NullDeref /\
  EVP_MAC_final NULL (Some o) NULL w = Crash NullDeref /\
  EVP_MAC_final NULL NULL NULL w = Ok 1 w /\
  (forall dst, EVP_MAC_CTX_copy dst NULL w = Crash NullDeref) /\
  (forall src cs, heap w !! src = Some (B_ctx cs) ->
     EVP_MAC_CTX_copy NULL (Some src) w = Crash NullDeref).
Proof.
  repeat split; try reflexivity.
  intros src cs Hs. unfold EVP_MAC_CTX_copy. repeat step. reflexivity.
Qed.

End Streaming.

Section Control.

Context {W : Type}.
Implicit Types (w : world W) (l : loc) (c : EVP_MAC_CTX W) (m : EVP_MAC W).

Lemma EVP_MAC_ctrl_str_no_table type value w l c :
  heap w !! l = Some (B_ctx c) -> meth c = None ->
  EVP_MAC_ctrl_str (Some l) type value w =
  Ok (-2) (log (Ev_err EVP_F_EVP_MAC_CTRL_STR EVP_R_COMMAND_NOT_SUPPORTED) w).
Proof.
  intros Hl Hm. destruct c as [mp d]; simpl in *; subst.
  unfold EVP_MAC_ctrl_str. repeat step. reflexivity.
Qed.

Lemma EVP_MAC_ctrl_str_no_entry type value w l c m :
  heap w !! l = Some (B_ctx c) -> meth c = Some m ->
  meth_ctrl_str m = None ->
  EVP_MAC_ctrl_str (Some l) type value w =
  Ok (-2) (log (Ev_err EVP_F_EVP_MAC_CTRL_STR EVP_R_COMMAND_NOT_SUPPORTED) w).
Proof.
  intros Hl Hm Hc. destruct c as [mp d]; simpl in *; subst.
  unfold EVP_MAC_ctrl_str. repeat step. rewrite Hc. repeat step.
  reflexivity.
Qed.

Lemma EVP_MAC_ctrl_str_entry type value w l c m f :
  heap w !! l = Some (B_ctx c) -> meth c = Some m ->
  meth_ctrl_str m = Some f ->
  let r := (f (data c) type value (algo w)).1 in
  let w1 := with_algo (f (data c) type value (algo w)).2
              (log (Ev_entry (Call_ctrl_str (data c) type value)) w) in
  EVP_MAC_ctrl_str (Some l) type value w =
  Ok r (if r =? -2
        then log (Ev_err EVP_F_EVP_MAC_CTRL_STR EVP_R_COMMAND_NOT_SUPPORTED) w1
        else w1).
Proof.
  intros Hl Hm Hc. destruct c as [mp d]; simpl in *; subst.
  unfold EVP_MAC_ctrl_str. repeat step. rewrite Hc. repeat step.
  rewrite Hc. repeat step. destruct (_ =? -2); reflexivity.
Qed.

(** X3. EVP_MAC_ctrl_str answers -2, having reported the error under its
    own function code and called nothing, for a null context, a null
    method table and a table without ctrl_str; otherwise it calls
    ctrl_str once with the private state, the name and the value, returns
    its result, and reports the error when that result is -2. *)
Theorem EVP_MAC_ctrl_str_routing type value w :
  let refused :=
    log (Ev_err EVP_F_EVP_MAC_CTRL_STR EVP_R_COMMAND_NOT_SUPPORTED) in
  EVP_MAC_ctrl_str NULL type value w = Ok (-2) (refused w) /\
  (forall l c, heap w !! l = Some (B_ctx c) ->
     (meth c = None ->
        EVP_MAC_ctrl_str (Some l) type value w = Ok (-2) (refused w)) /\
     (forall m, meth c = Some m ->
        (meth_ctrl_str m = None ->
           EVP_MAC_ctrl_str (Some l) type value w = Ok (-2) (refused w)) /\
        (forall f, meth_ctrl_str m = Some f ->
           let r := (f (data c) type value (algo w)).1 in
           let w1 := with_algo (f (data c) type value (algo w)).2
                       (log (Ev_entry (Call_ctrl_str (data c) type value)) w) in
           EVP_MAC_ctrl_str (Some l) type value w =
           Ok r (if r =? -2 then refused w1 else w1)))).
Proof.
  intros refused. split; [reflexivity|]. intros l c Hl. split.
  - intros Hm. by apply EVP_MAC_ctrl_str_no_table with c.
  - intros m Hm. split.
    + intros Hc. by apply EVP_MAC_ctrl_str_no_entry with c m.
    + intros f Hf. by apply EVP_MAC_ctrl_str_entry with m.
Qed.

Lemma err_reports_snoc t e :
  err_reports (t ++ [e]) = err_reports t ++ (if is_err_report e then [e] else []).
Proof.
  unfold err_reports. rewrite List.filter_app. simpl.
  by destruct (is_err_report e).
Qed.

(** X17. For a null or live context the router reports
    COMMAND_NOT_SUPPORTED exactly when it answers -2: the trace gains that
    one report when the result is -2 and no report otherwise. *)
Theorem EVP_MAC_ctrl_reports_refusals ctx cmd args w :
  ctx_ok w ctx ->
  exists r w',
    EVP_MAC_ctrl ctx cmd args w = Ok r w' /\
    err_reports (trace w') =
    err_reports (trace w) ++
    (if r =? -2
     then [Ev_err EVP_F_EVP_MAC_CTRL EVP_R_COMMAND_NOT_SUPPORTED]
     else []).
Proof.
  destruct ctx as [l|]; simpl.
  - intros [c Hl]. destruct (meth c) as [m|] eqn:Hm.
    + destruct (meth_ctrl m) as [f|] eqn:Hc.
      * eexists _, _. split; [by apply EVP_MAC_ctrl_entry with m|].
        destruct (_ =? -2); cbn; rewrite ?err_reports_snoc; cbn;
          by rewrite ?app_nil_r.
      * eexists _, _. split; [by apply EVP_MAC_ctrl_no_entry with c m|].
        cbn. by rewrite err_reports_snoc.
    + eexists _, _. split; [by apply EVP_MAC_ctrl_no_table with c|].
      cbn. by rewrite err_reports_snoc.
  - intros _. eexists _, _. split; [apply EVP_MAC_ctrl_null|].
    cbn. by rewrite err_reports_snoc.
Qed.

Lemma EVP_MAC_ctrl_unrouted ctx cmd args w :
  unrouted w ctx -> EVP_MAC_ctrl ctx cmd args w = Ok (-2) (not_supported w).
Proof.
  destruct ctx as [l|]; simpl; [|intros _; apply EVP_MAC_ctrl_null].
  intros (c & Hl & Hm). destruct (meth c) as [m|] eqn:E.
  - by apply EVP_MAC_ctrl_no_entry with c m.
  - by apply EVP_MAC_ctrl_no_table with c.
Qed.


End Control.

Section Wrappers.

Context {W : Type}.
Variable decode : string -> option (list byte * Z).
Implicit Types (w : world W) (l : loc) (c : EVP_MAC_CTX W) (m : EVP_MAC W).

Lemma unrouted_buffer_at w ctx bs o :
  unrouted w ctx -> unrouted (buffer_at bs o w) ctx.
Proof.
  destruct ctx as [l|]; [|done]. intros (c & Hl & Hm). exists c.
  split; [|done]. cbn. by apply live_after_alloc.
Qed.

(** X20. The wrappers on a context the router cannot serve (null, no
    method table, or no ctrl entry).  EVP_MAC_str2ctrl with a text that
    fits answers -2 with the one error report; EVP_MAC_hex2ctrl with a
    decoded buffer that fits answers -2 as well, and has released the
    buffer: the memory is what it was. *)
Theorem wrappers_on_unrouted_context ctx cmd w :
  unrouted w ctx ->
  (forall value, strlen value <= INT_MAX ->
     EVP_MAC_str2ctrl ctx cmd value w = Ok (-2) (not_supported w)) /\
  (forall hex bs binlen o,
     decode hex = Some (bs, binlen) -> oracle w = true :: o ->
     0 <= binlen <= INT_MAX ->
     exists w',
       EVP_MAC_hex2ctrl decode ctx cmd hex w = Ok (-2) w' /\
       heap w' = heap w /\
       trace w' = trace w ++
         [Ev_alloc (Some (fresh (dom (heap w))));
          Ev_err EVP_F_EVP_MAC_CTRL EVP_R_COMMAND_NOT_SUPPORTED;
          Ev_release (fresh (dom (heap w)))]).
Proof.
  intros Hu. split.
  - intros value Hlen. unfold EVP_MAC_str2ctrl.
    destruct (strlen value >? INT_MAX) eqn:E.
    + apply Z.gtb_lt in E. lia.
    + by apply EVP_MAC_ctrl_unrouted.
  - intros hex bs binlen o Hdec Ho Hlen. unfold EVP_MAC_hex2ctrl.
    erewrite bind_Ok by (by eapply OPENSSL_hexstr2buf_decoded).
    repeat step. rewrite (proj2 (Z.leb_le _ _) (proj2 Hlen)).
    erewrite bind_Ok
      by (by apply EVP_MAC_ctrl_unrouted, unrouted_buffer_at).
    erewrite bind_Ok by (eapply OPENSSL_free_live; live).
    eexists. split; [reflexivity|]. cbn.
    split; [apply delete_insert_id, fresh_free|].
    by rewrite <- !app_assoc.
Qed.

End Wrappers.

Section Ownership.

Context {W : Type}.
Implicit Types (w : world W) (l : loc) (c : EVP_MAC_CTX W) (m : EVP_MAC W).

Lemma free_calls_snoc t e :
  free_calls (t ++ [e]) = free_calls t ++ (if is_free_call e then [e] else []).
Proof.
  unfold free_calls. rewrite List.filter_app. simpl.
  by destruct (is_free_call e).
Qed.

(** What EVP_MAC_CTX_copy does on live contexts, in one equation. *)
Lemma EVP_MAC_CTX_copy_run w dst src cd cs m :
  heap w !! dst = Some (B_ctx cd) -> heap w !! src = Some (B_ctx cs) ->
  meth cs = Some m ->
  EVP_MAC_CTX_copy (Some dst) (Some src) w =
  match data cs with
  | None => Ok 1 (with_heap (<[dst := B_ctx cs]> (heap w)) w)
  | Some p =>
      if is_null (meth_copy m (Some p) (algo w)).1
      then Ok 0 (log (Ev_err EVP_F_EVP_MAC_CTX_COPY ERR_R_MALLOC_FAILURE)
                   (duplicated m (Some p) dst w))
      else Ok 1 (duplicated m (Some p) dst w)
  end.
Proof.
  intros Hd Hs Hm. destruct (data cs) as [p|] eqn:Hp.
  - by apply EVP_MAC_CTX_copy_data with cd cs.
  - by apply EVP_MAC_CTX_copy_no_data with cd.
Qed.

(** X9. EVP_MAC_CTX_copy never calls free(): whatever private state the
    destination held before is overwritten, not destroyed. *)
Theorem EVP_MAC_CTX_copy_never_frees w dst src cd cs m :
  heap w !! dst = Some (B_ctx cd) -> heap w !! src = Some (B_ctx cs) ->
  meth cs = Some m ->
  exists r w',
    EVP_MAC_CTX_copy (Some dst) (Some src) w = Ok r w' /\
    free_calls (trace w') = free_calls (trace w) /\
    (forall old, data cd = Some old ->
       heap w' !! dst =
       Some (B_ctx {| meth := Some m;
                      data := match data cs with
                              | None => NULL
                              | Some p => (meth_copy m (Some p) (algo w)).1
                              end |})).
Proof.
  intros Hd Hs Hm.
  rewrite (EVP_MAC_CTX_copy_run _ _ _ _ _ _ Hd Hs Hm).
  destruct cs as [mp sd]; simpl in *; subst.
  destruct sd as [p|].
  - destruct (meth_copy m (Some p) (algo w)).1 eqn:Hc; cbn;
      eexists _, _; (split; [reflexivity|]); cbn;
      rewrite ?free_calls_snoc; cbn; rewrite ?app_nil_r;
      (split; [done|]); intros old _; rewrite Hc; apply lookup_insert_eq.
  - eexists _, _. split; [reflexivity|]. cbn. split; [done|].
    intros old _. apply lookup_insert_eq.
Qed.

(** X18. EVP_MAC_CTX_copy stores into the destination only: every other
    block, the source included when it is another context, is as it was,
    and nothing is allocated. *)
Theorem EVP_MAC_CTX_copy_frame w dst src cd cs m :
  heap w !! dst = Some (B_ctx cd) -> heap w !! src = Some (B_ctx cs) ->
  meth cs = Some m ->
  exists r w',
    EVP_MAC_CTX_copy (Some dst) (Some src) w = Ok r w' /\
    oracle w' = oracle w /\
    dom (heap w') = dom (heap w) /\
    (forall l, l ≠ dst -> heap w' !! l = heap w !! l).
Proof.
  intros Hd Hs Hm.
  rewrite (EVP_MAC_CTX_copy_run _ _ _ _ _ _ Hd Hs Hm).
  assert (Hdom : forall b : @block W, dom (<[dst := b]> (heap w)) = dom (heap w)).
  { intros b. by apply dom_insert_lookup_L. }
  destruct (data cs) as [p|];
    [destruct (is_null _)|]; eexists _, _; (split; [reflexivity|]); cbn;
    (split; [done|]); (split; [apply Hdom|]);
    intros l Hl; by rewrite lookup_insert_ne.
Qed.


(** X19. evp_mac_ctx_cleanup leaves the context live with a null private
    state, so that a second cleanup finds nothing to do: free() is called
    at most once. *)
Theorem evp_mac_ctx_cleanup_idempotent w l c :
  heap w !! l = Some (B_ctx c) ->
  (data c = NULL \/ exists m, meth c = Some m) ->
  exists w',
    evp_mac_ctx_cleanup (Some l) w = Ok tt w' /\
    heap w' !! l = Some (B_ctx {| meth := meth c; data := NULL |}) /\
    evp_mac_ctx_cleanup (Some l) w' = Ok tt w' /\
    (length (free_calls (trace w')) <= S (length (free_calls (trace w))))%nat.
Proof.
  intros Hl H. destruct (data c) as [d|] eqn:Hd.
  - destruct H as [H|[m Hm]]; [done|].
    eexists. split; [by apply evp_mac_ctx_cleanup_data with c|].
    assert (Hl' : forall w0 : world W,
              <[l := B_ctx {| meth := Some m; data := NULL |}]> (heap w0) !! l
              = Some (B_ctx {| meth := meth c; data := NULL |})).
    { intros w0. rewrite Hm. apply lookup_insert_eq. }
    split; [apply Hl'|]. split.
    + eapply evp_mac_ctx_cleanup_no_data; [apply Hl'|done].
    + cbn. rewrite free_calls_snoc, length_app. cbn. lia.
  - exists w. split; [by apply evp_mac_ctx_cleanup_no_data with c|].
    split; [by destruct c; simpl in *; subst|].
    split; [by apply evp_mac_ctx_cleanup_no_data with c|lia].
Qed.

(** X10. EVP_MAC_CTX_free is not to be repeated on a non-null context:
    the first call releases it, and a second call on the same pointer
    reads ctx->data in the released block. *)
Theorem EVP_MAC_CTX_free_twice w l c :
  heap w !! l = Some (B_ctx c) ->
  (data c = NULL \/ exists m, meth c = Some m) ->
  exists w',
    EVP_MAC_CTX_free (Some l) w = Ok tt w' /\
    heap w' !! l = None /\
    EVP_MAC_CTX_free (Some l) w' = Crash InvalidPointer.
Proof.
  intros Hl H.
  assert (Hgone : forall w0 : world W,
            EVP_MAC_CTX_free (Some l) (released l w0) = Crash InvalidPointer).
  { intros w0. unfold EVP_MAC_CTX_free, evp_mac_ctx_cleanup, get_data.
    repeat step. apply bind_Crash.
    unfold load_ctx. cbn. by rewrite lookup_delete_eq. }
  destruct (data c) as [d|] eqn:Hd.
  - destruct H as [H|[m Hm]]; [done|].
    eexists. split.
    { unfold EVP_MAC_CTX_free.
      erewrite bind_Ok by (by apply evp_mac_ctx_cleanup_data with c).
      eapply OPENSSL_free_live. live. }
    split; [cbn; apply lookup_delete_eq|apply Hgone].
  - eexists. split.
    { unfold EVP_MAC_CTX_free.
      erewrite bind_Ok by (by apply evp_mac_ctx_cleanup_no_data with c).
      by eapply OPENSSL_free_live. }
    split; [cbn; apply lookup_delete_eq|apply Hgone].
Qed.

End Ownership.

Section Worlds.

Context {W : Type}.
Implicit Types (w : world W) (l q : loc) (m : EVP_MAC W).

(** Two outcomes are the same when the results and the four fields of
    the worlds are. *)
Lemma Ok_ext {A} (a a' : A) w w' :
  a = a' -> heap w = heap w' -> oracle w = oracle w' ->
  algo w = algo w' -> trace w = trace w' ->
  Ok a w = Ok a' w'.
Proof. destruct w, w'; simpl; intros; by subst. Qed.

Lemma heap_released l w : heap (released l w) = delete l (heap w).
Proof. reflexivity. Qed.

Lemma oracle_released l w : oracle (released l w) = oracle w.
Proof. reflexivity. Qed.

Lemma algo_released l w : algo (released l w) = algo w.
Proof. reflexivity. Qed.

Lemma trace_released l w : trace (released l w) = trace w ++ [Ev_release l].
Proof. reflexivity. Qed.

Lemma heap_size_stored m d q w :
  heap (size_stored m d q w)
  = <[q := B_size_t (meth_size m d (algo w)).1]> (heap w).
Proof. reflexivity. Qed.

Lemma oracle_size_stored m d q w : oracle (size_stored m d q w) = oracle w.
Proof. reflexivity. Qed.

Lemma algo_size_stored m d q w :
  algo (size_stored m d q w) = (meth_size m d (algo w)).2.
Proof. reflexivity. Qed.

Lemma trace_size_stored m d q w :
  trace (size_stored m d q w) = trace w ++ [Ev_entry (Call_size d)].
Proof. reflexivity. Qed.

Lemma heap_tag_written m d out w : heap (tag_written m d out w) = heap w.
Proof. reflexivity. Qed.

Lemma oracle_tag_written m d out w :
  oracle (tag_written m d out w) = oracle w.
Proof. reflexivity. Qed.

Lemma algo_tag_written m d out w :
  algo (tag_written m d out w) = (meth_final m d out (algo w)).2.
Proof. reflexivity. Qed.

Lemma trace_tag_written m d out w :
  trace (tag_written m d out w) = trace w ++ [Ev_entry (Call_final d out)].
Proof. reflexivity. Qed.

End Worlds.

#[global] Hint Rewrite @heap_released @oracle_released @algo_released
  @trace_released @heap_size_stored @oracle_size_stored @algo_size_stored
  @trace_size_stored @heap_tag_written @oracle_tag_written
  @algo_tag_written @trace_tag_written : world.

Section OneShotSteps.

Context {W : Type}.
Variable SET_KEY : Z.
Implicit Types (w : world W) (l b : loc) (c : EVP_MAC_CTX W) (m : EVP_MAC W).

(** X11. When init() answers 0, EVP_MAC_oneshot returns 0 having called
    neither ctrl, update() nor final(): after new() and init() come
    free() and the release of the context, and the memory is what it was
    before the call. *)
Theorem EVP_MAC_oneshot_init_rejected m w o d key keylen dat datalen out poutlen :
  oracle w = true :: o -> (meth_new m (algo w)).1 = Some d ->
  let b := fresh (dom (heap w)) in
  let s1 := meth_init m (Some d) (meth_new m (algo w)).2 in
  s1.1 = 0 ->
  EVP_MAC_oneshot SET_KEY (Some m) key keylen dat datalen out poutlen w =
  Ok 0 {| heap := heap w;
          oracle := o;
          algo := meth_free m (Some d) s1.2;
          trace := trace w ++ [Ev_alloc (Some b); Ev_entry Call_new;
                               Ev_entry (Call_init (Some d));
                               Ev_entry (Call_free (Some d));
                               Ev_release b] |}.
Proof.
  intros Ho Hn b s1 Hi. unfold EVP_MAC_oneshot.
  erewrite bind_Ok by (by eapply EVP_MAC_CTX_new_success).
  fold b. unfold EVP_MAC_init, call_init, lnot.
  repeat step. autorewrite with world. cbn [algo]. fold s1.
  rewrite Hi. repeat step.
  unfold EVP_MAC_CTX_free. rewrite bind_assoc.
  erewrite bind_Ok
    by (eapply (evp_mac_ctx_cleanup_data _ b _ m d); [live|done|done]).
  erewrite bind_Ok by (eapply OPENSSL_free_live; live).
  apply Ok_ext; [done|..]; autorewrite with world; cbn [heap oracle algo trace].
  - by rewrite !delete_insert_eq, delete_id by apply fresh_free.
  - done.
  - done.
  - by rewrite <- !app_assoc.
Qed.

(** X12. When init() succeeds and the ctrl entry answers 0 to the
    set-key command, EVP_MAC_oneshot returns 0 without calling update()
    or final(); the key pointer and its length are what ctrl was given. *)
Theorem EVP_MAC_oneshot_key_rejected m f w o d key keylen dat datalen out poutlen :
  oracle w = true :: o -> (meth_new m (algo w)).1 = Some d ->
  meth_ctrl m = Some f ->
  let b := fresh (dom (heap w)) in
  let args := [VA_ptr key; VA_size keylen] in
  let s1 := meth_init m (Some d) (meth_new m (algo w)).2 in
  let s2 := f (Some d) SET_KEY args s1.2 in
  s1.1 <> 0 -> s2.1 = 0 ->
  EVP_MAC_oneshot SET_KEY (Some m) key keylen dat datalen out poutlen w =
  Ok 0 {| heap := heap w;
          oracle := o;
          algo := meth_free m (Some d) s2.2;
          trace := trace w ++ [Ev_alloc (Some b); Ev_entry Call_new;
                               Ev_entry (Call_init (Some d));
                               Ev_entry (Call_ctrl (Some d) SET_KEY args);
                               Ev_entry (Call_free (Some d));
                               Ev_release b] |}.
Proof.
  intros Ho Hn Hc b args s1 s2 Hi Hk. unfold EVP_MAC_oneshot.
  erewrite bind_Ok by (by eapply EVP_MAC_CTX_new_success).
  fold b. unfold EVP_MAC_init, call_init, lnot.
  repeat step. autorewrite with world. cbn [algo]. fold s1.
  rewrite (proj2 (Z.eqb_neq _ _) Hi). repeat step.
  erewrite bind_Ok
    by (eapply (EVP_MAC_ctrl_entry _ _ _ b _ m f); [live|reflexivity|done]).
  cbn [data]. autorewrite with world. cbn [algo]. fold args. fold s2.
  rewrite Hk. cbn [Z.eqb]. repeat step.
  unfold EVP_MAC_CTX_free. rewrite bind_assoc.
  erewrite bind_Ok
    by (eapply (evp_mac_ctx_cleanup_data _ b _ m d); [live|done|done]).
  erewrite bind_Ok by (eapply OPENSSL_free_live; live).
  apply Ok_ext; [done|..]; autorewrite with world; cbn [heap oracle algo trace].
  - by rewrite !delete_insert_eq, delete_id by apply fresh_free.
  - done.
  - done.
  - by rewrite <- !app_assoc.
Qed.

(** X13. When init() and the set-key command are taken as successful
    and update() answers 0, EVP_MAC_oneshot returns 0 and neither size()
    nor final() is called: nothing is stored through the out-length
    pointer. *)
Theorem EVP_MAC_oneshot_update_rejected m f w o d key keylen dat datalen out poutlen :
  oracle w = true :: o -> (meth_new m (algo w)).1 = Some d ->
  meth_ctrl m = Some f ->
  let b := fresh (dom (heap w)) in
  let args := [VA_ptr key; VA_size keylen] in
  let s1 := meth_init m (Some d) (meth_new m (algo w)).2 in
  let s2 := f (Some d) SET_KEY args s1.2 in
  let s3 := meth_update m (Some d) dat datalen s2.2 in
  s1.1 <> 0 -> s2.1 <> 0 -> s3.1 = 0 ->
  EVP_MAC_oneshot SET_KEY (Some m) key keylen dat datalen out poutlen w =
  Ok 0 {| heap := heap w;
          oracle := o;
          algo := meth_free m (Some d) s3.2;
          trace := trace w ++
            [Ev_alloc (Some b); Ev_entry Call_new;
             Ev_entry (Call_init (Some d));
             Ev_entry (Call_ctrl (Some d) SET_KEY args)] ++
            (if s2.1 =? -2
             then [Ev_err EVP_F_EVP_MAC_CTRL EVP_R_COMMAND_NOT_SUPPORTED]
             else []) ++
            [Ev_entry (Call_update (Some d) dat datalen);
             Ev_entry (Call_free (Some d));
             Ev_release b] |}.
Proof.
  intros Ho Hn Hc b args s1 s2 s3 Hi Hk Hu. unfold EVP_MAC_oneshot.
  erewrite bind_Ok by (by eapply EVP_MAC_CTX_new_success).
  fold b. unfold EVP_MAC_init, call_init, lnot.
  repeat step. autorewrite with world. cbn [algo]. fold s1.
  rewrite (proj2 (Z.eqb_neq _ _) Hi). repeat step.
  erewrite bind_Ok
    by (eapply (EVP_MAC_ctrl_entry _ _ _ b _ m f); [live|reflexivity|done]).
  cbn [data]. autorewrite with world. cbn [algo]. fold args. fold s2.
  rewrite (proj2 (Z.eqb_neq _ _) Hk). repeat step.
  unfold EVP_MAC_update, call_update, not_supported.
  destruct (s2.1 =? -2);
    repeat step; autorewrite with world; cbn [algo]; fold s3;
    rewrite Hu; repeat step;
    unfold EVP_MAC_CTX_free; rewrite bind_assoc;
    (erewrite bind_Ok
       by (eapply (evp_mac_ctx_cleanup_data _ b _ m d); [live|done|done]));
    (erewrite bind_Ok by (eapply OPENSSL_free_live; live));
    (apply Ok_ext; [done|..]; autorewrite with world;
     cbn [heap oracle algo trace not_supported];
     autorewrite with world; cbn [heap oracle algo trace];
     [by rewrite !delete_insert_eq, delete_id by apply fresh_free
     |done|done|by rewrite <- !app_assoc]).
Qed.

(** X14. The whole sequence.  When init(), the set-key command and
    update() are taken as successful, EVP_MAC_oneshot with a buffer and
    an out-length pointer calls new, init, ctrl, update, size, final and
    free in this order, each on the state the one before left; it
    returns 1 unless final() answered 0, the length is stored through the
    pointer, and the context is gone. *)
Theorem EVP_MAC_oneshot_sequence m f w o d key keylen dat datalen out q old :
  oracle w = true :: o -> (meth_new m (algo w)).1 = Some d ->
  meth_ctrl m = Some f -> heap w !! q = Some (B_size_t old) ->
  let b := fresh (dom (heap w)) in
  let args := [VA_ptr key; VA_size keylen] in
  let s1 := meth_init m (Some d) (meth_new m (algo w)).2 in
  let s2 := f (Some d) SET_KEY args s1.2 in
  let s3 := meth_update m (Some d) dat datalen s2.2 in
  let s4 := meth_size m (Some d) s3.2 in
  let s5 := meth_final m (Some d) (Some out) s4.2 in
  s1.1 <> 0 -> s2.1 <> 0 -> s3.1 <> 0 ->
  EVP_MAC_oneshot SET_KEY (Some m) key keylen dat datalen
    (Some out) (Some q) w =
  Ok (if s5.1 =? 0 then 0 else 1)
     {| heap := <[q := B_size_t s4.1]> (heap w);
        oracle := o;
        algo := meth_free m (Some d) s5.2;
        trace := trace w ++
          [Ev_alloc (Some b); Ev_entry Call_new;
           Ev_entry (Call_init (Some d));
           Ev_entry (Call_ctrl (Some d) SET_KEY args)] ++
          (if s2.1 =? -2
           then [Ev_err EVP_F_EVP_MAC_CTRL EVP_R_COMMAND_NOT_SUPPORTED]
           else []) ++
          [Ev_entry (Call_update (Some d) dat datalen);
           Ev_entry (Call_size (Some d));
           Ev_entry (Call_final (Some d) (Some out));
           Ev_entry (Call_free (Some d));
           Ev_release b] |}.
Proof.
  intros Ho Hn Hc Hq b args s1 s2 s3 s4 s5 Hi Hk Hu.
  assert (Hne : b ≠ q).
  { intros E. pose proof (fresh_free w) as Hf. fold b in Hf.
    rewrite E in Hf. congruence. }
  unfold EVP_MAC_oneshot.
  erewrite bind_Ok by (by eapply EVP_MAC_CTX_new_success).
  fold b.
  remember (EVP_MAC_final (Some b) (Some out) (Some q)) as fin eqn:Efin.
  unfold EVP_MAC_init, call_init, lnot.
  repeat step. autorewrite with world. cbn [algo]. fold s1.
  rewrite (proj2 (Z.eqb_neq _ _) Hi). repeat step.
  erewrite bind_Ok
    by (eapply (EVP_MAC_ctrl_entry _ _ _ b _ m f); [live|reflexivity|done]).
  cbn [data]. autorewrite with world. cbn [algo]. fold args. fold s2.
  rewrite (proj2 (Z.eqb_neq _ _) Hk). repeat step.
  unfold EVP_MAC_update, call_update, not_supported.
  destruct (s2.1 =? -2);
    repeat step; autorewrite with world; cbn [algo]; fold s3;
    rewrite (proj2 (Z.eqb_neq _ _) Hu); repeat step; subst fin;
    (erewrite bind_Ok
       by (eapply (EVP_MAC_final_tag _ b q _ m old out);
           [live|reflexivity|live]));
    cbn [data]; autorewrite with world; cbn [algo]; fold s4; fold s5;
    repeat step;
    unfold EVP_MAC_CTX_free; rewrite bind_assoc;
    (erewrite bind_Ok
       by (eapply (evp_mac_ctx_cleanup_data _ b _ m d);
           [autorewrite with world; cbn [heap];
            rewrite lookup_insert_ne by done; apply lookup_insert_eq
           |done|done]));
    (erewrite bind_Ok by (eapply OPENSSL_free_live; live));
    (apply Ok_ext; [done|..]; autorewrite with world;
     cbn [heap oracle algo trace]; fold s4; fold s5;
     [rewrite delete_insert_eq, (delete_insert_ne _ b q) by done;
      by rewrite delete_insert_eq, delete_id by apply fresh_free
     |done|done|by rewrite <- !app_assoc]).
Qed.

(** X21. Asked for the length only (no buffer), EVP_MAC_oneshot still
    runs init, the set-key command and update(), then calls size() and not
    final(): it returns 1 with the length stored and no tag computed. *)
Theorem EVP_MAC_oneshot_size_query m f w o d key keylen dat datalen q old :
  oracle w = true :: o -> (meth_new m (algo w)).1 = Some d ->
  meth_ctrl m = Some f -> heap w !! q = Some (B_size_t old) ->
  let b := fresh (dom (heap w)) in
  let args := [VA_ptr key; VA_size keylen] in
  let s1 := meth_init m (Some d) (meth_new m (algo w)).2 in
  let s2 := f (Some d) SET_KEY args s1.2 in
  let s3 := meth_update m (Some d) dat datalen s2.2 in
  let s4 := meth_size m (Some d) s3.2 in
  s1.1 <> 0 -> s2.1 <> 0 -> s3.1 <> 0 ->
  EVP_MAC_oneshot SET_KEY (Some m) key keylen dat datalen NULL (Some q) w =
  Ok 1
     {| heap := <[q := B_size_t s4.1]> (heap w);
        oracle := o;
        algo := meth_free m (Some d) s4.2;
        trace := trace w ++
          [Ev_alloc (Some b); Ev_entry Call_new;
           Ev_entry (Call_init (Some d));
           Ev_entry (Call_ctrl (Some d) SET_KEY args)] ++
          (if s2.1 =? -2
           then [Ev_err EVP_F_EVP_MAC_CTRL EVP_R_COMMAND_NOT_SUPPORTED]
           else []) ++
          [Ev_entry (Call_update (Some d) dat datalen);
           Ev_entry (Call_size (Some d));
           Ev_entry (Call_free (Some d));
           Ev_release b] |}.
Proof.
  intros Ho Hn Hc Hq b args s1 s2 s3 s4 Hi Hk Hu.
  assert (Hne : b ≠ q).
  { intros E. pose proof (fresh_free w) as Hf. fold b in Hf.
    rewrite E in Hf. congruence. }
  unfold EVP_MAC_oneshot.
  erewrite bind_Ok by (by eapply EVP_MAC_CTX_new_success).
  fold b. remember (EVP_MAC_final (Some b) NULL (Some q)) as fin eqn:Efin.
  unfold EVP_MAC_init, call_init, lnot.
  repeat step. autorewrite with world. cbn [algo]. fold s1.
  rewrite (proj2 (Z.eqb_neq _ _) Hi). repeat step.
  erewrite bind_Ok
    by (eapply (EVP_MAC_ctrl_entry _ _ _ b _ m f); [live|reflexivity|done]).
  cbn [data]. autorewrite with world. cbn [algo]. fold args. fold s2.
  rewrite (proj2 (Z.eqb_neq _ _) Hk). repeat step.
  unfold EVP_MAC_update, call_update, not_supported.
  destruct (s2.1 =? -2);
    repeat step; autorewrite with world; cbn [algo]; fold s3;
    rewrite (proj2 (Z.eqb_neq _ _) Hu); repeat step; subst fin;
    (erewrite bind_Ok
       by (eapply (EVP_MAC_final_query _ b q _ m old);
           [live|reflexivity|live]));
    cbn [data]; autorewrite with world; cbn [algo]; fold s4;
    repeat step;
    unfold EVP_MAC_CTX_free; rewrite bind_assoc;
    (erewrite bind_Ok
       by (eapply (evp_mac_ctx_cleanup_data _ b _ m d);
           [autorewrite with world; cbn [heap];
            rewrite lookup_insert_ne by done; apply lookup_insert_eq
           |done|done]));
    (erewrite bind_Ok by (eapply OPENSSL_free_live; live));
    (apply Ok_ext; [done|..]; autorewrite with world;
     cbn [heap oracle algo trace]; fold s4;
     [rewrite delete_insert_eq, (delete_insert_ne _ b q) by done;
      by rewrite delete_insert_eq, delete_id by apply fresh_free
     |done|done|by rewrite <- !app_assoc]).
Qed.

End OneShotSteps.

(** * The further properties at work on the sample algorithm *)

Lemma EVP_MAC_CTX_new_returns_context_witness :
  exists b w',
    EVP_MAC_CTX_new (Some tally) (start [true]) = Ok (Some b) w' /\
    heap (start [true]) !! b = None /\
    heap w' !! b
      = Some (B_ctx {| meth := Some tally; data := Some 9%positive |}) /\
    (forall l, l ≠ b -> heap w' !! l = heap (start [true]) !! l) /\
    oracle w' = [] /\
    algo w' = 0 /\
    trace w' = [Ev_alloc (Some b); Ev_entry Call_new].
Proof.
  exact (EVP_MAC_CTX_new_returns_context tally (start [true]) []
           9%positive eq_refl eq_refl).
Defined.

Lemma EVP_MAC_CTX_new_then_free_witness :
  (EVP_MAC_CTX_new (Some tally) ≫= EVP_MAC_CTX_free) (start [true]) =
  Ok tt {| heap := ∅; oracle := []; algo := 0;
           trace := [Ev_alloc (Some 1%positive); Ev_entry Call_new;
                     Ev_entry (Call_free (Some 9%positive));
                     Ev_release 1%positive] |}.
Proof.
  exact (EVP_MAC_CTX_new_then_free tally (start [true]) [] 9%positive
           eq_refl eq_refl).
Defined.


Lemma EVP_MAC_reset_spec_witness :
  EVP_MAC_reset (Some 1%positive) (one_ctx tally NULL [])
    = Ok 1 (one_ctx tally NULL []) /\
  EVP_MAC_reset (Some 1%positive) (one_ctx tally (Some 9%positive) [])
    = Ok 1 (log (Ev_entry (Call_reset (Some 9%positive)))
              (one_ctx tally (Some 9%positive) [])).
Proof.
  split.
  - exact (proj1 (EVP_MAC_reset_spec (one_ctx tally NULL []) 1%positive
                    {| meth := Some tally; data := NULL |} eq_refl) eq_refl).
  - exact (proj2 (EVP_MAC_reset_spec (one_ctx tally (Some 9%positive) [])
                    1%positive
                    {| meth := Some tally; data := Some 9%positive |} eq_refl)
             tally 9%positive eq_refl eq_refl).
Defined.

Lemma EVP_MAC_init_update_unguarded_witness :
  EVP_MAC_init (Some 1%positive) (one_ctx tally NULL [])
    = Ok 1 (log (Ev_entry (Call_init NULL)) (one_ctx tally NULL [])) /\
  EVP_MAC_update (Some 1%positive) (Some 21%positive) 3 (one_ctx tally NULL [])
    = Ok 1 (with_algo 3
              (log (Ev_entry (Call_update NULL (Some 21%positive) 3))
                 (one_ctx tally NULL []))).
Proof.
  exact (EVP_MAC_init_update_unguarded (one_ctx tally NULL []) 1%positive
           {| meth := Some tally; data := NULL |} tally
           (Some 21%positive) 3 eq_refl eq_refl).
Defined.

Lemma EVP_MAC_final_with_buffer_witness :
  EVP_MAC_final (Some 1%positive) (Some 30%positive) NULL
      (ctx_and_size_t tally (Some 9%positive))
    = Ok 1 (log (Ev_entry (Call_final (Some 9%positive) (Some 30%positive)))
              (ctx_and_size_t tally (Some 9%positive))) /\
  (exists r w',
     EVP_MAC_final (Some 1%positive) (Some 30%positive) (Some 2%positive)
       (ctx_and_size_t tally (Some 9%positive)) = Ok r w' /\
     r = 1 /\
     heap w' = <[2%positive := B_size_t 8]>
                 (heap (ctx_and_size_t tally (Some 9%positive))) /\
     trace w' = [Ev_entry (Call_size (Some 9%positive));
                 Ev_entry (Call_final (Some 9%positive) (Some 30%positive))]).
Proof.
  destruct (EVP_MAC_final_with_buffer
              (ctx_and_size_t tally (Some 9%positive)) 1%positive
              {| meth := Some tally; data := Some 9%positive |} tally
              30%positive eq_refl eq_refl) as [H1 H2].
  split; [exact H1|]. exact (H2 2%positive 0 eq_refl).
Defined.

Lemma null_context_is_dereferenced_witness :
  EVP_MAC_CTX_copy NULL (Some 1%positive) (one_ctx tally (Some 9%positive) [])
    = Crash NullDeref.
Proof.
  apply (null_context_is_dereferenced (one_ctx tally (Some 9%positive) [])
           NULL 0 NULL 2%positive 30%positive)
    with (cs := {| meth := Some tally; data := Some 9%positive |}).
  reflexivity.
Defined.

Lemma EVP_MAC_ctrl_str_routing_witness :
  EVP_MAC_ctrl_str (Some 1%positive) "key" "00"
      (one_ctx (script_mac 1 1 1 1) (Some 9%positive) [])
    = Ok 1 (log (Ev_entry (Call_ctrl_str (Some 9%positive) "key" "00"))
              (one_ctx (script_mac 1 1 1 1) (Some 9%positive) [])) /\
  EVP_MAC_ctrl_str (Some 1%positive) "key" "00"
      (one_ctx tally (Some 9%positive) [])
    = Ok (-2)
        (log (Ev_err EVP_F_EVP_MAC_CTRL_STR EVP_R_COMMAND_NOT_SUPPORTED)
           (one_ctx tally (Some 9%positive) [])).
Proof.
  split.
  - refine (proj2 (proj2 (proj2 (EVP_MAC_ctrl_str_routing "key" "00"
              (one_ctx (script_mac 1 1 1 1) (Some 9%positive) []))
              1%positive
              {| meth := Some (script_mac 1 1 1 1);
                 data := Some 9%positive |} eq_refl)
              (script_mac 1 1 1 1) eq_refl) _ eq_refl).
  - exact (proj1 (proj2 (proj2 (EVP_MAC_ctrl_str_routing "key" "00"
              (one_ctx tally (Some 9%positive) []))
              1%positive
              {| meth := Some tally; data := Some 9%positive |} eq_refl)
              tally eq_refl) eq_refl).
Defined.

Lemma EVP_MAC_ctrl_reports_refusals_witness :
  exists r w',
    EVP_MAC_ctrl (Some 1%positive) 7 []
      (one_ctx tally (Some 9%positive) []) = Ok r w' /\
    err_reports (trace w') =
    err_reports [] ++
    (if r =? -2
     then [Ev_err EVP_F_EVP_MAC_CTRL EVP_R_COMMAND_NOT_SUPPORTED]
     else []).
Proof.
  apply (EVP_MAC_ctrl_reports_refusals (Some 1%positive) 7 []
           (one_ctx tally (Some 9%positive) [])).
  exists {| meth := Some tally; data := Some 9%positive |}. reflexivity.
Defined.


Lemma wrappers_on_unrouted_context_witness :
  EVP_MAC_str2ctrl (Some 1%positive) 1 "key"
      (one_ctx tally_plain (Some 9%positive) [true])
    = Ok (-2) (not_supported (one_ctx tally_plain (Some 9%positive) [true])) /\
  (exists w',
     EVP_MAC_hex2ctrl hex_pairs (Some 1%positive) 1 "00ff"
       (one_ctx tally_plain (Some 9%positive) [true]) = Ok (-2) w' /\
     heap w' = heap (one_ctx tally_plain (Some 9%positive) [true]) /\
     trace w' =
       [Ev_alloc (Some 2%positive);
        Ev_err EVP_F_EVP_MAC_CTRL EVP_R_COMMAND_NOT_SUPPORTED;
        Ev_release 2%positive]).
Proof.
  assert (Hu : unrouted (one_ctx tally_plain (Some 9%positive) [true])
                 (Some 1%positive)).
  { exists {| meth := Some tally_plain; data := Some 9%positive |}.
    split; reflexivity. }
  destruct (wrappers_on_unrouted_context hex_pairs (Some 1%positive) 1
              (one_ctx tally_plain (Some 9%positive) [true]) Hu)
    as [Hs Hh].
  split.
  - apply Hs. vm_compute. discriminate.
  - apply (Hh "00ff"%string [x00; xff] 2 [] eq_refl eq_refl).
    unfold INT_MAX. lia.
Defined.

Lemma EVP_MAC_CTX_copy_never_frees_witness :
  exists r w',
    EVP_MAC_CTX_copy (Some 2%positive) (Some 1%positive) (two_owned tally)
      = Ok r w' /\
    free_calls (trace w') = [] /\
    heap w' !! 2%positive
      = Some (B_ctx {| meth := Some tally; data := Some 10%positive |}).
Proof.
  destruct (EVP_MAC_CTX_copy_never_frees (two_owned tally)
              2%positive 1%positive
              {| meth := Some tally; data := Some 5%positive |}
              {| meth := Some tally; data := Some 9%positive |}
              tally eq_refl eq_refl eq_refl)
    as (r & w' & Hrun & Hfree & Hdst).
  exists r, w'. split; [exact Hrun|]. split; [exact Hfree|].
  exact (Hdst 5%positive eq_refl).
Defined.

Lemma EVP_MAC_CTX_copy_frame_witness :
  exists r w',
    EVP_MAC_CTX_copy (Some 2%positive) (Some 1%positive) (two_owned tally)
      = Ok r w' /\
    oracle w' = [] /\
    dom (heap w') = dom (heap (two_owned tally)) /\
    (forall l, l ≠ 2%positive ->
       heap w' !! l = heap (two_owned tally) !! l).
Proof.
  exact (EVP_MAC_CTX_copy_frame (two_owned tally) 2%positive 1%positive
           {| meth := Some tally; data := Some 5%positive |}
           {| meth := Some tally; data := Some 9%positive |}
           tally eq_refl eq_refl eq_refl).
Defined.


Lemma evp_mac_ctx_cleanup_idempotent_witness :
  exists w',
    evp_mac_ctx_cleanup (Some 1%positive) (one_ctx tally (Some 9%positive) [])
      = Ok tt w' /\
    heap w' !! 1%positive
      = Some (B_ctx {| meth := Some tally; data := NULL |}) /\
    evp_mac_ctx_cleanup (Some 1%positive) w' = Ok tt w' /\
    (length (free_calls (trace w')) <= 1)%nat.
Proof.
  apply (evp_mac_ctx_cleanup_idempotent (one_ctx tally (Some 9%positive) [])
           1%positive {| meth := Some tally; data := Some 9%positive |}).
  - reflexivity.
  - right. exists tally. reflexivity.
Defined.

Lemma EVP_MAC_CTX_free_twice_witness :
  exists w',
    EVP_MAC_CTX_free (Some 1%positive) (one_ctx tally (Some 9%positive) [])
      = Ok tt w' /\
    heap w' !! 1%positive = None /\
    EVP_MAC_CTX_free (Some 1%positive) w' = Crash InvalidPointer.
Proof.
  apply (EVP_MAC_CTX_free_twice (one_ctx tally (Some 9%positive) [])
           1%positive {| meth := Some tally; data := Some 9%positive |}).
  - reflexivity.
  - right. exists tally. reflexivity.
Defined.

Lemma EVP_MAC_oneshot_init_rejected_witness :
  EVP_MAC_oneshot 1 (Some (script_mac 0 1 1 1)) (Some 20%positive) 16
      (Some 21%positive) 3 (Some 22%positive) (Some 2%positive)
      (one_size_t [true]) =
  Ok 0 {| heap := heap (one_size_t [true]); oracle := []; algo := 0;
          trace := [Ev_alloc (Some 3%positive); Ev_entry Call_new;
                    Ev_entry (Call_init (Some 9%positive));
                    Ev_entry (Call_free (Some 9%positive));
                    Ev_release 3%positive] |}.
Proof.
  exact (EVP_MAC_oneshot_init_rejected 1 (script_mac 0 1 1 1)
           (one_size_t [true]) [] 9%positive (Some 20%positive) 16
           (Some 21%positive) 3 (Some 22%positive) (Some 2%positive)
           eq_refl eq_refl eq_refl).
Defined.

Lemma EVP_MAC_oneshot_key_rejected_witness :
  EVP_MAC_oneshot 1 (Some (script_mac 1 0 1 1)) (Some 20%positive) 16
      (Some 21%positive) 3 (Some 22%positive) (Some 2%positive)
      (one_size_t [true]) =
  Ok 0 {| heap := heap (one_size_t [true]); oracle := []; algo := 0;
          trace := [Ev_alloc (Some 3%positive); Ev_entry Call_new;
                    Ev_entry (Call_init (Some 9%positive));
                    Ev_entry (Call_ctrl (Some 9%positive) 1
                                [VA_ptr (Some 20%positive); VA_size 16]);
                    Ev_entry (Call_free (Some 9%positive));
                    Ev_release 3%positive] |}.
Proof.
  refine (EVP_MAC_oneshot_key_rejected 1 (script_mac 1 0 1 1) _
            (one_size_t [true]) [] 9%positive (Some 20%positive) 16
            (Some 21%positive) 3 (Some 22%positive) (Some 2%positive)
            eq_refl eq_refl eq_refl _ eq_refl).
  discriminate.
Defined.

Lemma EVP_MAC_oneshot_update_rejected_witness :
  EVP_MAC_oneshot 1 (Some (script_mac 1 1 0 1)) (Some 20%positive) 16
      (Some 21%positive) 3 (Some 22%positive) (Some 2%positive)
      (one_size_t [true]) =
  Ok 0 {| heap := heap (one_size_t [true]); oracle := []; algo := 3;
          trace := [Ev_alloc (Some 3%positive); Ev_entry Call_new;
                    Ev_entry (Call_init (Some 9%positive));
                    Ev_entry (Call_ctrl (Some 9%positive) 1
                                [VA_ptr (Some 20%positive); VA_size 16]);
                    Ev_entry (Call_update (Some 9%positive)
                                (Some 21%positive) 3);
                    Ev_entry (Call_free (Some 9%positive));
                    Ev_release 3%positive] |}.
Proof.
  refine (EVP_MAC_oneshot_update_rejected 1 (script_mac 1 1 0 1) _
            (one_size_t [true]) [] 9%positive (Some 20%positive) 16
            (Some 21%positive) 3 (Some 22%positive) (Some 2%positive)
            eq_refl eq_refl eq_refl _ _ eq_refl); discriminate.
Defined.

Lemma EVP_MAC_oneshot_sequence_witness :
  EVP_MAC_oneshot 1 (Some (script_mac 1 1 1 1)) (Some 20%positive) 16
      (Some 21%positive) 3 (Some 22%positive) (Some 2%positive)
      (one_size_t [true]) =
  Ok 1 {| heap := {[ 2%positive := B_size_t 8 ]}; oracle := []; algo := 3;
          trace := [Ev_alloc (Some 3%positive); Ev_entry Call_new;
                    Ev_entry (Call_init (Some 9%positive));
                    Ev_entry (Call_ctrl (Some 9%positive) 1
                                [VA_ptr (Some 20%positive); VA_size 16]);
                    Ev_entry (Call_update (Some 9%positive)
                                (Some 21%positive) 3);
                    Ev_entry (Call_size (Some 9%positive));
                    Ev_entry (Call_final (Some 9%positive)
                                (Some 22%positive));
                    Ev_entry (Call_free (Some 9%positive));
                    Ev_release 3%positive] |}.
Proof.
  refine (EVP_MAC_oneshot_sequence 1 (script_mac 1 1 1 1) _
            (one_size_t [true]) [] 9%positive (Some 20%positive) 16
            (Some 21%positive) 3 22%positive 2%positive 0
            eq_refl eq_refl eq_refl eq_refl _ _ _); discriminate.
Defined.

Lemma EVP_MAC_oneshot_size_query_witness :
  EVP_MAC_oneshot 1 (Some (script_mac 1 1 1 1)) (Some 20%positive) 16
      (Some 21%positive) 3 NULL (Some 2%positive) (one_size_t [true]) =
  Ok 1 {| heap := {[ 2%positive := B_size_t 8 ]}; oracle := []; algo := 3;
          trace := [Ev_alloc (Some 3%positive); Ev_entry Call_new;
                    Ev_entry (Call_init (Some 9%positive));
                    Ev_entry (Call_ctrl (Some 9%positive) 1
                                [VA_ptr (Some 20%positive); VA_size 16]);
                    Ev_entry (Call_update (Some 9%positive)
                                (Some 21%positive) 3);
                    Ev_entry (Call_size (Some 9%positive));
                    Ev_entry (Call_free (Some 9%positive));
                    Ev_release 3%positive] |}.
Proof.
  refine (EVP_MAC_oneshot_size_query 1 (script_mac 1 1 1 1) _
            (one_size_t [true]) [] 9%positive (Some 20%positive) 16
            (Some 21%positive) 3 2%positive 0
            eq_refl eq_refl eq_refl eq_refl _ _ _); discriminate.
Defined.
